(** * orders-demo: a shallow embedding of the order service (cmd/ordersvc)

    The Go service validates order documents received from a NATS Streaming
    channel, upserts them into a PostgreSQL table [orders], mirrors them in an
    in-memory cache and serves them over HTTP.  This file embeds:
    - the JSON grammar checked by [json.Valid] and the part of
      [encoding/json] decoding that the service relies on;
    - [minimalValidateOrder];
    - the [Store] ([Upsert], [LoadCache], [Get]) over an explicit database
      outcome supplied by the environment;
    - the message handler passed to [QuerySubscribe] in [main];
    - [apiHandler] and [pageHandler] over a small model of
      [http.ResponseWriter]. *)

From Stdlib Require Import String Ascii ZArith List.
From stdpp Require Import base gmap list strings.

Local Open Scope string_scope.
Local Open Scope nat_scope.

(** stdpp makes [String.append] opaque to [simpl]; this development
    computes with it. *)
#[local] Arguments String.append : simpl nomatch.

(* ================================================================== *)
(** ** Bytes and characters *)

(** Payloads ([[]byte] / [json.RawMessage]) are byte strings. *)
Definition byte (c : ascii) : nat := nat_of_ascii c.

Definition chr (n : nat) : string := String (ascii_of_nat n) EmptyString.

(** The double quote character, and a helper that writes a JSON text with
    single quotes standing for double quotes. *)
Definition dquote : ascii := ascii_of_nat 34.

Fixpoint dq (s : string) : string :=
  match s with
  | EmptyString => EmptyString
  | String c r => String (if Ascii.eqb c "'"%char then dquote else c) (dq r)
  end.

Definition in_range (lo hi : nat) (c : ascii) : bool :=
  (lo <=? byte c) && (byte c <=? hi).

Definition is_ws (c : ascii) : bool :=
  match byte c with 32 | 9 | 10 | 13 => true | _ => false end.

Definition is_digit (c : ascii) : bool := in_range 48 57 c.

Definition hex_val (c : ascii) : option N :=
  if in_range 48 57 c then Some (N.of_nat (byte c - 48))
  else if in_range 97 102 c then Some (N.of_nat (byte c - 87))
  else if in_range 65 70 c then Some (N.of_nat (byte c - 55))
  else None.

Fixpoint skip_ws (s : string) : string :=
  match s with
  | String c r => if is_ws c then skip_ws r else s
  | EmptyString => EmptyString
  end.

Fixpoint strip_prefix (p s : string) : option string :=
  match p, s with
  | EmptyString, _ => Some s
  | String a p', String b s' => if Ascii.eqb a b then strip_prefix p' s' else None
  | _, _ => None
  end.

(** [utf8.EncodeRune]: surrogates and values above U+10FFFF become U+FFFD.
    Code points are [N]. *)
Definition chrN (n : N) : string := String (ascii_of_N n) EmptyString.

Local Open Scope N_scope.
Definition utf8_encode (r : N) : string :=
  let r := if ((55296 <=? r) && (r <? 57344)) || (1114111 <? r) then 65533%N else r in
  if r <? 128 then chrN r
  else if r <? 2048 then chrN (192 + r / 64) +:+ chrN (128 + r mod 64)
  else if r <? 65536 then
    chrN (224 + r / 4096) +:+ chrN (128 + (r / 64) mod 64) +:+ chrN (128 + r mod 64)
  else chrN (240 + r / 262144) +:+ chrN (128 + (r / 4096) mod 64)
       +:+ chrN (128 + (r / 64) mod 64) +:+ chrN (128 + r mod 64).
Local Close Scope N_scope.

Definition replacement_char : string := utf8_encode 65533%N.

(** [utf8.DecodeRune]: the length of the valid UTF-8 sequence at the head
    of [s], or [None] when the head is not valid UTF-8. *)
Definition utf8_width (s : string) : option nat :=
  match s with
  | EmptyString => None
  | String c0 r =>
    let b0 := byte c0 in
    if b0 <? 128 then Some 1
    else if (194 <=? b0) && (b0 <=? 223) then
      match r with
      | String c1 _ => if in_range 128 191 c1 then Some 2 else None
      | _ => None
      end
    else if (224 <=? b0) && (b0 <=? 239) then
      let lo := if b0 =? 224 then 160 else 128 in
      let hi := if b0 =? 237 then 159 else 191 in
      match r with
      | String c1 (String c2 _) =>
          if in_range lo hi c1 && in_range 128 191 c2 then Some 3 else None
      | _ => None
      end
    else if (240 <=? b0) && (b0 <=? 244) then
      let lo := if b0 =? 240 then 144 else 128 in
      let hi := if b0 =? 244 then 143 else 191 in
      match r with
      | String c1 (String c2 (String c3 _)) =>
          if in_range lo hi c1 && in_range 128 191 c2 && in_range 128 191 c3
          then Some 4 else None
      | _ => None
      end
    else None
  end.

(* ================================================================== *)
(** ** JSON values and the grammar of [json.Valid] *)

Inductive json : Type :=
| JNull
| JBool (b : bool)
| JNum (text : string)                (** the number literal as written *)
| JStr (s : string)                   (** the unquoted string *)
| JArr (elems : list json)
| JObj (members : list (string * json)). (** in document order, duplicates kept *)

(** [getu4]: four hex digits. *)
Definition hex4 (s : string) : option (N * string) :=
  match s with
  | String a (String b (String c (String d r))) =>
      match hex_val a, hex_val b, hex_val c, hex_val d with
      | Some x, Some y, Some z, Some w => Some ((((x * 16 + y) * 16 + z) * 16 + w)%N, r)
      | _, _, _, _ => None
      end
  | _ => None
  end.

Definition simple_escape (e : ascii) : option ascii :=
  match byte e with
  | 34 => Some dquote | 92 => Some e | 47 => Some e
  | 98 => Some (ascii_of_nat 8) | 102 => Some (ascii_of_nat 12)
  | 110 => Some (ascii_of_nat 10) | 114 => Some (ascii_of_nat 13)
  | 116 => Some (ascii_of_nat 9)
  | _ => None
  end.

(** The body of a string literal after its opening quote: the scanner's
    checks (no control byte, valid escapes) together with [unquote]
    (escapes decoded, [\u] surrogate pairs combined, a lone surrogate and
    invalid UTF-8 replaced by U+FFFD).  Returns the decoded string and the
    input after the closing quote. *)
Fixpoint lex_string (fuel : nat) (s : string) : option (string * string) :=
  match fuel with
  | O => None
  | S f =>
    match s with
    | EmptyString => None
    | String c r =>
      if Ascii.eqb c dquote then Some (EmptyString, r)
      else if Ascii.eqb c "\"%char then
        match r with
        | EmptyString => None
        | String e r' =>
          match simple_escape e with
          | Some d =>
              match lex_string f r' with
              | Some (out, rest) => Some (String d out, rest)
              | None => None
              end
          | None =>
            if Ascii.eqb e "u"%char then
              match hex4 r' with
              | None => None
              | Some (u, r'') =>
                let '(piece, next) :=
                  if ((55296 <=? u) && (u <? 57344))%N then
                    match strip_prefix "\u" r'' with
                    | Some r3 =>
                        match hex4 r3 with
                        | Some (u2, r4) =>
                            if ((u <? 56320) && (56320 <=? u2) && (u2 <? 57344))%N
                            then (utf8_encode (65536 + (u - 55296) * 1024 + (u2 - 56320))%N, r4)
                            else (replacement_char, r'')
                        | None => (replacement_char, r'')
                        end
                    | None => (replacement_char, r'')
                    end
                  else (utf8_encode u, r'') in
                match lex_string f next with
                | Some (out, rest) => Some (piece +:+ out, rest)
                | None => None
                end
              end
            else None
          end
        end
      else if byte c <? 32 then None
      else if byte c <? 128 then
        match lex_string f r with
        | Some (out, rest) => Some (String c out, rest)
        | None => None
        end
      else
        match utf8_width s with
        | Some w =>
            match lex_string f (substring w (String.length s - w) s) with
            | Some (out, rest) => Some (substring 0 w s +:+ out, rest)
            | None => None
            end
        | None =>
            match lex_string f r with
            | Some (out, rest) => Some (replacement_char +:+ out, rest)
            | None => None
            end
        end
    end
  end.

Fixpoint span_digits (s : string) : string * string :=
  match s with
  | String c r =>
      if is_digit c then let '(d, rest) := span_digits r in (String c d, rest)
      else (EmptyString, s)
  | EmptyString => (EmptyString, EmptyString)
  end.

Definition first_is (p : ascii -> bool) (s : string) : bool :=
  match s with String c _ => p c | EmptyString => false end.

(** Number literal: [-? (0 | [1-9][0-9]* ) (. [0-9]+)? ([eE] [+-]? [0-9]+)?] *)
Definition lex_number (s : string) : option (string * string) :=
  let '(sign, s1) := match s with
                     | String c r => if Ascii.eqb c "-"%char then ("-", r) else ("", s)
                     | EmptyString => ("", s)
                     end in
  match s1 with
  | String c r =>
    if negb (is_digit c) then None else
    let '(int, s2) := if Ascii.eqb c "0"%char then ("0", r)
                      else let '(d, rest) := span_digits r in (String c d, rest) in
    let frac := match s2 with
                | String c2 r2 =>
                    if Ascii.eqb c2 "."%char then
                      let '(d, rest) := span_digits r2 in
                      if String.eqb d "" then None else Some ("." +:+ d, rest)
                    else Some ("", s2)
                | EmptyString => Some ("", s2)
                end in
    match frac with
    | None => None
    | Some (fr, s3) =>
      let exp := match s3 with
                 | String e r3 =>
                   if Ascii.eqb e "e"%char || Ascii.eqb e "E"%char then
                     let '(sg, r4) := match r3 with
                                      | String c4 r4 =>
                                          if Ascii.eqb c4 "+"%char || Ascii.eqb c4 "-"%char
                                          then (String c4 EmptyString, r4) else ("", r3)
                                      | EmptyString => ("", r3)
                                      end in
                     let '(d, rest) := span_digits r4 in
                     if String.eqb d "" then None else Some (String e sg +:+ d, rest)
                   else Some ("", s3)
                 | EmptyString => Some ("", s3)
                 end in
      match exp with
      | None => None
      | Some (ex, rest) => Some (sign +:+ int +:+ fr +:+ ex, rest)
      end
    end
  | EmptyString => None
  end.

(** [maxNestingDepth] of the scanner: [pushParseState] fails with
    [exceeded max depth] when a [{] or [[] would make more than this many
    containers open at once. *)
Definition maxNestingDepth : nat := 10000.

(** Values, inside [depth] open containers.  Each nested call consumes
    input before it spends fuel, so [S (length s)] units are enough for any
    input. *)
Fixpoint parse_value (fuel depth : nat) (s : string) {struct fuel} : option (json * string) :=
  match fuel with
  | O => None
  | S f =>
    match skip_ws s with
    | EmptyString => None
    | String c r as s0 =>
      if Ascii.eqb c "{"%char then
        if maxNestingDepth <? S depth then None else
        match skip_ws r with
        | String c' r' => if Ascii.eqb c' "}"%char then Some (JObj [], r')
                          else parse_members f (S depth) (String c' r') []
        | EmptyString => None
        end
      else if Ascii.eqb c "["%char then
        if maxNestingDepth <? S depth then None else
        match skip_ws r with
        | String c' r' => if Ascii.eqb c' "]"%char then Some (JArr [], r')
                          else parse_elems f (S depth) (String c' r') []
        | EmptyString => None
        end
      else if Ascii.eqb c dquote then
        match lex_string (String.length r) r with
        | Some (str, rest) => Some (JStr str, rest)
        | None => None
        end
      else match strip_prefix "true" s0 with Some rest => Some (JBool true, rest) | None =>
           match strip_prefix "false" s0 with Some rest => Some (JBool false, rest) | None =>
           match strip_prefix "null" s0 with Some rest => Some (JNull, rest) | None =>
           match lex_number s0 with Some (n, rest) => Some (JNum n, rest) | None => None
           end end end end
    end
  end
with parse_elems (fuel depth : nat) (s : string) (acc : list json) {struct fuel}
  : option (json * string) :=
  match fuel with
  | O => None
  | S f =>
    match parse_value f depth s with
    | None => None
    | Some (v, rest) =>
      match skip_ws rest with
      | String c r =>
          if Ascii.eqb c ","%char then parse_elems f depth r (v :: acc)
          else if Ascii.eqb c "]"%char then Some (JArr (rev (v :: acc)), r)
          else None
      | EmptyString => None
      end
    end
  end
with parse_members (fuel depth : nat) (s : string) (acc : list (string * json)) {struct fuel}
  : option (json * string) :=
  match fuel with
  | O => None
  | S f =>
    match skip_ws s with
    | String q r =>
      if negb (Ascii.eqb q dquote) then None else
      match lex_string (String.length r) r with
      | None => None
      | Some (key, rest) =>
        match skip_ws rest with
        | String colon r1 =>
          if negb (Ascii.eqb colon ":"%char) then None else
          match parse_value f depth r1 with
          | None => None
          | Some (v, rest2) =>
            match skip_ws rest2 with
            | String c r2 =>
                if Ascii.eqb c ","%char then parse_members f depth r2 ((key, v) :: acc)
                else if Ascii.eqb c "}"%char then Some (JObj (rev ((key, v) :: acc)), r2)
                else None
            | EmptyString => None
            end
          end
        | EmptyString => None
        end
      end
    | EmptyString => None
    end
  end.

(** The whole payload is one value surrounded by white space.  [json.Valid]
    and the [checkValid] pass that [json.Unmarshal] makes before decoding
    both run this scanner. *)
Definition parse_json (s : string) : option json :=
  match parse_value (S (String.length s)) 0 s with
  | Some (v, rest) => if String.eqb (skip_ws rest) "" then Some v else None
  | None => None
  end.

(** [json.Valid] *)
Definition json_Valid (s : string) : bool :=
  match parse_json s with Some _ => true | None => false end.

(* ================================================================== *)
(** ** [encoding/json] decoding into Go values

    The Go types the service decodes into, their values, and [Unmarshal]. *)

Inductive gotype : Type :=
| TString
| TInt64
| TRawMessage                          (** [json.RawMessage] *)
| TPtr (t : gotype)                    (** [*t] *)
| TSlice (t : gotype)                  (** [[]t] *)
| TStruct (fields : list (string * gotype)). (** JSON name of each field *)

Inductive goval : Type :=
| VString (s : string)
| VInt (z : Z)
| VRaw (raw : option json)             (** [None]: the nil [RawMessage] *)
| VNil                                 (** nil pointer *)
| VPtr (v : goval)
| VSlice (elems : list goval)
| VStruct (fields : list goval).

Fixpoint zero (t : gotype) : goval :=
  match t with
  | TString => VString ""
  | TInt64 => VInt 0
  | TRawMessage => VRaw None
  | TPtr _ => VNil
  | TSlice _ => VSlice []
  | TStruct fs => VStruct (map (fun f => zero (snd f)) fs)
  end.

(** [*json.UnmarshalTypeError]: the decoder records the first one and
    carries on with the rest of the document. *)
Inductive decode_error : Type :=
| UnmarshalTypeError (value : string).

Definition first_error (e1 e2 : option decode_error) : option decode_error :=
  match e1 with Some _ => e1 | None => e2 end.

(** The [Value] of the [UnmarshalTypeError] for a JSON value stored into a
    Go value of another kind ([literalStore], [d.array], [d.object]); a
    number that does not fit an integer field reports [number <literal>]
    instead (see [decode]). *)
Definition json_kind (j : json) : string :=
  match j with
  | JNull => "null" | JBool _ => "bool" | JNum _ => "number"
  | JStr _ => "string" | JArr _ => "array" | JObj _ => "object"
  end.

(** Key folding of [foldName]: ASCII letters are upper-cased, and the two
    non-ASCII runes whose case-fold class contains an ASCII letter, U+017F
    (long s) and U+212A (Kelvin sign), fold to [S] and [K].  Every other
    non-ASCII rune folds to a non-ASCII rune; those bytes are kept, which
    gives the same answer whenever one side is an ASCII name. *)
Fixpoint fold_name (s : string) : string :=
  match s with
  | EmptyString => EmptyString
  | String c r =>
    let n := byte c in
    if (97 <=? n) && (n <=? 122) then String (ascii_of_nat (n - 32)) (fold_name r)
    else if n <? 128 then String c (fold_name r)
    else match r with
         | String c1 r1 =>
           if (n =? 197) && (byte c1 =? 191) then String "S"%char (fold_name r1)
           else match r1 with
                | String c2 r2 =>
                  if (n =? 226) && (byte c1 =? 132) && (byte c2 =? 170)
                  then String "K"%char (fold_name r2)
                  else String c (fold_name r)
                | EmptyString => String c (fold_name r)
                end
         | EmptyString => String c EmptyString
         end
  end.

Fixpoint find_index {A} (p : A -> bool) (l : list A) : option nat :=
  match l with
  | [] => None
  | x :: l' => if p x then Some 0 else option_map S (find_index p l')
  end.

(** The struct field a JSON key selects: an exact match of the field's JSON
    name first, otherwise a case-insensitive one. *)
Definition field_index (fs : list (string * gotype)) (key : string) : option nat :=
  match find_index (fun f => String.eqb (fst f) key) fs with
  | Some i => Some i
  | None => find_index (fun f => String.eqb (fold_name (fst f)) (fold_name key)) fs
  end.

Definition field_type (fs : list (string * gotype)) (i : nat) : gotype :=
  snd (nth i fs ("", TString)).

(** [strconv.ParseInt(text, 10, 64)] on a JSON number literal. *)
Definition parse_int64 (text : string) : option Z :=
  let '(neg, digits) := match text with
                        | String c r => if Ascii.eqb c "-"%char then (true, r) else (false, text)
                        | EmptyString => (false, text)
                        end in
  let fix go (s : string) (acc : Z) : option Z :=
    match s with
    | EmptyString => Some acc
    | String c r => if is_digit c then go r (acc * 10 + Z.of_nat (byte c - 48))%Z else None
    end in
  match digits with
  | EmptyString => None
  | _ =>
    match go digits 0%Z with
    | Some v => let z := if neg then (- v)%Z else v in
                if (-9223372036854775808 <=? z)%Z && (z <=? 9223372036854775807)%Z
                then Some z else None
    | None => None
    end
  end.

(** Decoding the elements of an array into a slice: element [i] is decoded
    into the slice's existing element [i] when there is one, otherwise into
    a zero value; the slice ends with as many elements as the array. *)
Fixpoint decode_elems (dec : json -> gotype -> goval -> goval * option decode_error)
    (t : gotype) (l : list json) (old : list goval) : list goval * option decode_error :=
  match l with
  | [] => ([], None)
  | x :: l' =>
    let '(v, e1) := dec x t (match old with o :: _ => o | [] => zero t end) in
    let '(vs, e2) := decode_elems dec t l' (tail old) in
    (v :: vs, first_error e1 e2)
  end.

(** Decoding the members of an object into a struct, in document order: a
    member whose key selects no field is skipped; a repeated key is decoded
    again into the same field. *)
Fixpoint decode_members (dec : json -> gotype -> goval -> goval * option decode_error)
    (fs : list (string * gotype)) (ms : list (string * json)) (vals : list goval)
    : list goval * option decode_error :=
  match ms with
  | [] => (vals, None)
  | (k, x) :: ms' =>
    match field_index fs k with
    | Some i =>
      let '(v, e1) := dec x (field_type fs i) (nth i vals VNil) in
      let '(vals', e2) := decode_members dec fs ms' (<[i := v]> vals) in
      (vals', first_error e1 e2)
    | None => decode_members dec fs ms' vals
    end
  end.

(** [d.value] into a Go value of type [t] currently holding [cur].
    - [null] sets pointers and slices to nil, is stored as the text [null]
      by a [RawMessage], and leaves strings, integers and structs unchanged;
    - a non-null value is stored through a pointer (allocating it when nil);
    - a [RawMessage] takes any value;
    - any other mismatch records an [UnmarshalTypeError] and leaves the
      target unchanged. *)
Fixpoint decode (j : json) (t : gotype) (cur : goval) {struct j}
  : goval * option decode_error :=
  let fix go (t : gotype) (cur : goval) : goval * option decode_error :=
    match t, j with
    | TPtr _, JNull => (VNil, None)
    | TPtr t', _ =>
        let '(v, e) := go t' (match cur with VPtr x => x | _ => zero t' end) in
        (VPtr v, e)
    | TRawMessage, _ => (VRaw (Some j), None)
    | TSlice _, JNull => (VSlice [], None)
    | _, JNull => (cur, None)
    | TString, JStr s => (VString s, None)
    | TInt64, JNum n =>
        match parse_int64 n with
        | Some z => (VInt z, None)
        | None => (cur, Some (UnmarshalTypeError ("number " +:+ n)))
        end
    | TSlice te, JArr l =>
        let '(vs, e) := decode_elems decode te l
                          (match cur with VSlice old => old | _ => [] end) in
        (VSlice vs, e)
    | TStruct fs, JObj ms =>
        let '(vals, e) := decode_members decode fs ms
                            (match cur with VStruct vs => vs | _ => map (fun f => zero (snd f)) fs end) in
        (VStruct vals, e)
    | _, _ => (cur, Some (UnmarshalTypeError (json_kind j)))
    end in
  go t cur.

(** Errors returned by the functions of the service. *)
Inductive error : Type :=
| ErrInvalidJSON                 (** [errors.New("invalid JSON")] *)
| ErrSyntax                      (** [*json.SyntaxError] *)
| ErrUnmarshalType (value : string) (** [*json.UnmarshalTypeError] *)
| ErrMissingOrderUID             (** [errors.New("missing order_uid")] *)
| ErrMissingNested               (** [errors.New("missing required nested fields")] *)
| ErrDB (msg : string).          (** an error returned by the database driver *)

Definition decode_err (e : option decode_error) : option error :=
  match e with Some (UnmarshalTypeError v) => Some (ErrUnmarshalType v) | None => None end.

(** [json.Unmarshal(data, &v)] where [v] has type [t] and holds [cur]. *)
Definition Unmarshal (t : gotype) (data : string) (cur : goval) : goval * option error :=
  match parse_json data with
  | None => (cur, Some ErrSyntax)
  | Some j => let '(v, e) := decode j t cur in (v, decode_err e)
  end.

(* ================================================================== *)
(** ** [minimalValidateOrder] *)

(** [struct { OrderUID string `json:"order_uid"`; Delivery *json.RawMessage
    `json:"delivery"`; Payment *json.RawMessage `json:"payment"`;
    Items []json.RawMessage `json:"items"` }] *)
Definition tmp_fields : list (string * gotype) :=
  [("order_uid", TString); ("delivery", TPtr TRawMessage);
   ("payment", TPtr TRawMessage); ("items", TSlice TRawMessage)].

Definition tmp_type : gotype := TStruct tmp_fields.

Definition struct_field (v : goval) (i : nat) : goval :=
  match v with VStruct fs => nth i fs VNil | _ => VNil end.

Definition as_string (v : goval) : string :=
  match v with VString s => s | _ => "" end.

Definition is_nil_ptr (v : goval) : bool :=
  match v with VNil => true | _ => false end.

Definition slice_len (v : goval) : nat :=
  match v with VSlice l => length l | _ => 0 end.

(** Go's [(string, error)] result is the pair [(id, err)]. *)
Definition minimalValidateOrder (payload : string) : string * option error :=
  if negb (json_Valid payload) then ("", Some ErrInvalidJSON) else
  let '(tmp, err) := Unmarshal tmp_type payload (zero tmp_type) in
  match err with
  | Some e => ("", Some e)
  | None =>
    if String.eqb (as_string (struct_field tmp 0)) "" then ("", Some ErrMissingOrderUID)
    else if is_nil_ptr (struct_field tmp 1) || is_nil_ptr (struct_field tmp 2)
            || (slice_len (struct_field tmp 3) =? 0)
    then ("", Some ErrMissingNested)
    else (as_string (struct_field tmp 0), None)
  end.

(* ================================================================== *)
(** ** The store: table [orders], the cache and their operations

    The table is keyed by [order_uid] (its primary key); a row holds the
    payload and [created_at].  The payload column is treated as holding the
    payload text that was written.  Every database call takes its outcome
    from the environment: the statement either runs ([DbOk]) or the driver
    returns an error and the statement has no effect ([DbFail]). *)

Record row := { row_payload : string; row_created_at : Z }.

Record Store := { db : gmap string row; cache : gmap string string }.

Inductive db_outcome := DbOk | DbFail (msg : string).

(** Observable steps, in the order they happen. *)
Inductive event :=
| EvDbExec (id payload : string) (ok : bool)   (** the INSERT ... ON CONFLICT statement *)
| EvCacheSet (id payload : string)             (** [s.cache[id] = ...] under [s.mu] *)
| EvAck (seq : Z)                              (** [m.Ack()] *)
| EvLog (msg : string).                        (** [log.Printf] *)

(** A state monad over the store that also records the events. *)
Definition M (A : Type) : Type := Store -> A * Store * list event.

Definition ret {A} (a : A) : M A := fun s => (a, s, []).

Definition bind {A B} (m : M A) (k : A -> M B) : M B :=
  fun s => let '(a, s1, ev1) := m s in
           let '(b, s2, ev2) := k a s1 in (b, s2, (ev1 ++ ev2)%list).

Notation "'let*' x ':=' m 'in' k" := (bind m (fun x => k))
  (at level 200, x name, m at level 100, k at level 200).

Definition emit (e : event) : M unit := fun s => (tt, s, [e]).

Definition log (msg : string) : M unit := emit (EvLog msg).

(** [INSERT INTO orders(order_uid, payload) VALUES($1,$2)
     ON CONFLICT(order_uid) DO UPDATE SET payload=EXCLUDED.payload]:
    a new row gets [created_at = now()]; on a key conflict only the payload
    column is replaced. *)
Definition sql_upsert (t : gmap string row) (now : Z) (id payload : string)
  : gmap string row :=
  match t !! id with
  | Some r => <[id := {| row_payload := payload; row_created_at := row_created_at r |}]> t
  | None => <[id := {| row_payload := payload; row_created_at := now |}]> t
  end.

(** [s.db.Exec(ctx, upsert, id, payload)] *)
Definition db_exec_upsert (o : db_outcome) (now : Z) (id payload : string)
  : M (option error) :=
  fun s =>
    match o with
    | DbOk => (None, {| db := sql_upsert (db s) now id payload; cache := cache s |},
               [EvDbExec id payload true])
    | DbFail msg => (Some (ErrDB msg), s, [EvDbExec id payload false])
    end.

(** [s.mu.Lock(); s.cache[id] = json.RawMessage(payload); s.mu.Unlock()] *)
Definition cache_set (id payload : string) : M unit :=
  fun s => (tt, {| db := db s; cache := <[id := payload]> (cache s) |},
            [EvCacheSet id payload]).

(** [func (s *Store) Upsert(ctx, id string, payload []byte) error] *)
Definition Upsert (o : db_outcome) (now : Z) (id payload : string) : M (option error) :=
  let* err := db_exec_upsert o now id payload in
  match err with
  | Some e => ret (Some e)
  | None =>
    let* _ := cache_set id payload in
    ret None
  end.

(** [func (s *Store) Get(id string) (json.RawMessage, bool)] *)
Definition Get (s : Store) (id : string) : option string := cache s !! id.

(** [rows.Scan(&id, &payload)] on one row of the result set. *)
Inductive scanned := RowOk (id payload : string) | RowScanErr (msg : string).

(** [s.db.Query(ctx, "SELECT order_uid, payload FROM orders")]: either the
    query fails, or it yields the rows [rows.Next()] delivers followed by
    the value of [rows.Err()]. *)
Inductive query_result :=
| QueryErr (msg : string)
| QueryRows (rows : list scanned) (rows_err : option string).

(** Decimal text of an integer ([fmt] / [%d]). *)
Definition digit_char (d : Z) : ascii := ascii_of_nat (48 + Z.to_nat d).

Fixpoint pos_digits (fuel : nat) (n : Z) (acc : string) : string :=
  match fuel with
  | O => acc
  | S f => if (n <? 10)%Z then String (digit_char n) acc
           else pos_digits f (n / 10)%Z (String (digit_char (n mod 10)%Z) acc)
  end.

Definition z_to_dec (z : Z) : string :=
  if (z <? 0)%Z then "-" +:+ pos_digits 20 (- z)%Z "" else pos_digits 20 z "".

(** The loop [for rows.Next() { ... }] of [LoadCache]; [n] counts rows. *)
Fixpoint load_rows (rows : list scanned) (n : nat) : M (option error * nat) :=
  match rows with
  | [] => ret (None, n)
  | RowScanErr msg :: _ => ret (Some (ErrDB msg), n)
  | RowOk id payload :: rest =>
    let* _ := cache_set id payload in
    load_rows rest (S n)
  end.

(** [func (s *Store) LoadCache(ctx) error] *)
Definition LoadCache (q : query_result) : M (option error) :=
  match q with
  | QueryErr msg => ret (Some (ErrDB msg))
  | QueryRows rows rows_err =>
    let* r := load_rows rows 0 in
    match r with
    | (Some e, _) => ret (Some e)
    | (None, n) =>
      let* _ := log ("cache restored: " +:+ z_to_dec (Z.of_nat n) +:+ " orders") in
      ret (option_map ErrDB rows_err)
    end
  end.

(** [newStore] starts from an empty cache ([make(map[string]json.RawMessage)])
    and calls [LoadCache] once the table exists. *)
Definition empty_cache_store (t : gmap string row) : Store := {| db := t; cache := ∅ |}.

(* ================================================================== *)
(** ** The message handler of [main]

    [sc.QueueSubscribe(channel, "workers", func(m *stan.Msg) {...},
     SetManualAckMode(), MaxInflight(1), ...)] *)

Record Msg := { Sequence : Z; Data : string }.

(** [_ = m.Ack()] *)
Definition ack (m : Msg) : M unit := emit (EvAck (Sequence m)).

(** The handler of [SubscribeDurable] in [main]; the log lines are given
    without the text of the error that [: %v] appends to the first two. *)
Definition on_message (o : db_outcome) (now : Z) (m : Msg) : M unit :=
  let '(id, vErr) := minimalValidateOrder (Data m) in
  match vErr with
  | Some _ =>
    let* _ := log ("drop invalid msg (seq=" +:+ z_to_dec (Sequence m) +:+ ")") in
    ack m
  | None =>
    let* err := Upsert o now id (Data m) in
    match err with
    | Some _ =>
      log ("db upsert failed (seq=" +:+ z_to_dec (Sequence m) +:+ ", id=" +:+ id +:+ ")")
    | None =>
      let* _ := ack m in
      log ("stored order id=" +:+ id +:+ " (seq=" +:+ z_to_dec (Sequence m) +:+ ")")
    end
  end.

(* ================================================================== *)
(** ** HTTP: a model of [http.ResponseWriter] *)

(** [r.URL.Path] and the decoded pairs of [r.URL.Query()], in order. *)
Record Request := { Method : string; URLPath : string; URLQuery : list (string * string) }.

(** A response being written: the status once [WriteHeader] ran, the
    header map and the body written so far. *)
Record Response := { status : option Z; header : list (string * string); body : string }.

Definition new_response : Response := {| status := None; header := []; body := "" |}.

(** [w.Header().Set(k, v)] *)
Definition header_set (k v : string) (w : Response) : Response :=
  {| status := status w;
     header := (k, v) :: filter (fun kv => negb (String.eqb (fst kv) k)) (header w);
     body := body w |}.

(** [w.Header().Del(k)] *)
Definition header_del (k : string) (w : Response) : Response :=
  {| status := status w;
     header := filter (fun kv => negb (String.eqb (fst kv) k)) (header w);
     body := body w |}.

(** [w.WriteHeader(code)]: only the first call takes effect. *)
Definition WriteHeader (code : Z) (w : Response) : Response :=
  match status w with
  | None => {| status := Some code; header := header w; body := body w |}
  | Some _ => w
  end.

(** [w.Write(b)]: the first write sends status 200 if none was set. *)
Definition Write (b : string) (w : Response) : Response :=
  let w := WriteHeader 200 w in
  {| status := status w; header := header w; body := body w +:+ b |}.

(** The status the client receives: 200 when the handler wrote nothing. *)
Definition served_status (w : Response) : Z :=
  match status w with Some c => c | None => 200%Z end.

Definition newline : string := chr 10.

(** [http.Error(w, msg, code)] *)
Definition http_Error (w : Response) (msg : string) (code : Z) : Response :=
  let w := header_del "Content-Length" w in
  let w := header_set "Content-Type" "text/plain; charset=utf-8" w in
  let w := header_set "X-Content-Type-Options" "nosniff" w in
  let w := WriteHeader code w in
  Write (msg +:+ newline) w.

(** [strings.TrimPrefix(s, prefix)] *)
Definition TrimPrefix (s prefix : string) : string :=
  match strip_prefix prefix s with Some r => r | None => s end.

(** [apiHandler(store)] applied to a request. *)
Definition apiHandler (store : Store) (r : Request) : Response :=
  let w := new_response in
  let id := TrimPrefix (URLPath r) "/api/orders/" in
  if String.eqb id "" || String.eqb id (URLPath r) then http_Error w "missing id" 400
  else match Get store id with
       | Some payload =>
         let w := header_set "Content-Type" "application/json; charset=utf-8" w in
         let w := WriteHeader 200 w in
         Write payload w
       | None => http_Error w "not found" 404
       end.

(* ------------------------------------------------------------------ *)
(** *** The order view *)

(** [Delivery], [Payment], [Item], [Order]: a field without a json tag is
    matched by its Go name. *)
Definition delivery_type : gotype :=
  TStruct [("Name", TString); ("Phone", TString); ("Zip", TString); ("City", TString);
           ("Address", TString); ("Region", TString); ("Email", TString)].

Definition payment_type : gotype :=
  TStruct [("Transaction", TString); ("RequestID", TString); ("Currency", TString);
           ("Provider", TString); ("Bank", TString); ("Amount", TInt64);
           ("PaymentDT", TInt64); ("DeliveryCost", TInt64); ("GoodsTotal", TInt64);
           ("CustomFee", TInt64)].

Definition item_type : gotype :=
  TStruct [("chrt_id", TInt64); ("track_number", TString); ("price", TInt64);
           ("rid", TString); ("name", TString); ("sale", TInt64); ("size", TString);
           ("total_price", TInt64); ("nm_id", TInt64); ("brand", TString);
           ("status", TInt64)].

Definition order_type : gotype :=
  TStruct [("OrderUID", TString); ("TrackNumber", TString); ("Entry", TString);
           ("Locale", TString); ("InternalSign", TString); ("CustomerID", TString);
           ("DeliveryService", TString); ("ShardKey", TString); ("DateCreated", TString);
           ("OOFShard", TString); ("Delivery", delivery_type); ("Payment", payment_type);
           ("Items", TSlice item_type); ("sm_id", TInt64)].

(** [struct{ ID string; Found bool; Order Order; Raw string }] *)
Record page_data := { ID : string; Found : bool; Order : goval; Raw : string }.

(** html/template's escaper for text and quoted attribute values. *)
Fixpoint html_escape (s : string) : string :=
  match s with
  | EmptyString => EmptyString
  | String c r =>
    let rest := html_escape r in
    match byte c with
    | 0 => replacement_char +:+ rest
    | 34 => "&#34;" +:+ rest
    | 38 => "&amp;" +:+ rest
    | 39 => "&#39;" +:+ rest
    | 43 => "&#43;" +:+ rest
    | 60 => "&lt;" +:+ rest
    | 62 => "&gt;" +:+ rest
    | _ => String c rest
    end
  end.

Definition as_int (v : goval) : Z := match v with VInt z => z | _ => 0%Z end.

Definition fstr (v : goval) (i : nat) : string := html_escape (as_string (struct_field v i)).
Definition fint (v : goval) (i : nat) : string := z_to_dec (as_int (struct_field v i)).

Definition slice_elems (v : goval) : list goval :=
  match v with VSlice l => l | _ => [] end.

Fixpoint join_lines (ls : list string) : string :=
  match ls with
  | [] => ""
  | [l] => l
  | l :: ls' => l +:+ newline +:+ join_lines ls'
  end.

(** The text of [pageTpl] up to [{{if .Found}}]. *)
Definition page_top (d : page_data) : string :=
  join_lines
    [""; dq "<!doctype html><html lang='ru'><head>";
     dq "<meta charset='utf-8'/><meta name='viewport' content='width=device-width,initial-scale=1'/>";
     "<title>Order Viewer</title>";
     "<style>";
     "body{font-family:system-ui,-apple-system,Segoe UI,Roboto,Arial,sans-serif;margin:24px}";
     ".card{max-width:900px;margin:0 auto;border:1px solid #ddd;border-radius:8px;padding:16px}";
     ".row{display:flex;gap:24px;flex-wrap:wrap}.col{flex:1;min-width:260px}.muted{color:#666;font-size:.9em}";
     "pre{background:#f7f7f7;padding:12px;overflow:auto;border-radius:6px}";
     "input[type=text]{width:420px;padding:8px}button{padding:8px 12px;cursor:pointer}";
     dq "</style></head><body><div class='card'>";
     "<h2>Поиск заказа</h2>";
     dq "<form method='GET' action='/orders'>";
     dq "  <input name='id' type='text' placeholder='order_uid' value='" +:+ html_escape (ID d)
       +:+ dq "'/>";
     dq "  <button type='submit'>Показать</button>";
     dq "  <span class='muted'>пример: b563feb7b2b84b6test</span>";
     "</form>"; ""].

(** [{{range .Order.Items}} <li>...</li> {{end}}] *)
Definition page_item (it : goval) : string :=
  newline +:+ "    <li>" +:+ fstr it 4 +:+ " (" +:+ fstr it 9 +:+ ") — " +:+ fint it 7
  +:+ " | статус " +:+ fint it 10 +:+ "</li>" +:+ newline +:+ "  ".

(** The [{{if .Found}}] branch. *)
Definition page_found (d : page_data) : string :=
  let o := Order d in
  let dl := struct_field o 10 in
  let pm := struct_field o 11 in
  let items := slice_elems (struct_field o 12) in
  join_lines
    [""; "  <hr/><h3>Заказ: <code>" +:+ fstr o 0 +:+ "</code></h3>";
     dq "  <div class='row'>";
     dq "    <div class='col'><h4>Доставка</h4>";
     dq "      <div class='muted'>" +:+ fstr dl 0 +:+ ", " +:+ fstr dl 1 +:+ "</div>";
     "      <div>" +:+ fstr dl 4 +:+ ", " +:+ fstr dl 3 +:+ " " +:+ fstr dl 2 +:+ "</div>";
     "      <div>" +:+ fstr dl 5 +:+ "</div>";
     "      <div>" +:+ fstr dl 6 +:+ "</div>";
     "    </div>";
     dq "    <div class='col'><h4>Оплата</h4>";
     "      <div>Провайдер: " +:+ fstr pm 3 +:+ "</div>";
     "      <div>Валюта: " +:+ fstr pm 2 +:+ "</div>";
     "      <div>Сумма: " +:+ fint pm 5 +:+ "</div>";
     "      <div>Доставка: " +:+ fint pm 7 +:+ "</div>";
     "      <div>Товары: " +:+ fint pm 8 +:+ "</div>";
     dq "      <div class='muted'>Транзакция: " +:+ fstr pm 0 +:+ "</div>";
     "    </div>";
     "  </div>";
     "  <h4>Товары (" +:+ z_to_dec (Z.of_nat (length items)) +:+ ")</h4>";
     "  <ul>" +:+ String.concat "" (map page_item items) +:+ "</ul>";
     "  <details><summary>Показать сырой JSON</summary><pre>" +:+ html_escape (Raw d)
       +:+ "</pre></details>"; ""].

(** The [{{else if .ID}}] branch. *)
Definition page_not_found (d : page_data) : string :=
  join_lines
    [""; "  <hr/><div>Заказ с id <code>" +:+ html_escape (ID d)
           +:+ "</code> не найден в кэше.</div>"; ""].

(** The text after [{{end}}]. *)
Definition page_bottom : string := join_lines [""; "</div></body></html>"; ""].

(** [pageTpl.Execute(w, data)] *)
Definition render_page (d : page_data) : string :=
  page_top d
  +:+ (if Found d then page_found d else if negb (String.eqb (ID d) "") then page_not_found d else "")
  +:+ page_bottom.

Definition pageTpl_Execute (w : Response) (d : page_data) : Response * option error :=
  (Write (render_page d) w, None).

(** [r.URL.Query().Get(key)]: the first value, or [""]. *)
Fixpoint query_get (key : string) (q : list (string * string)) : string :=
  match q with
  | [] => ""
  | (k, v) :: q' => if String.eqb k key then v else query_get key q'
  end.

(** The [data] value [pageHandler] builds. *)
Definition page_data_of (store : Store) (id : string) : page_data :=
  let data := {| ID := id; Found := false; Order := zero order_type; Raw := "" |} in
  if negb (String.eqb id "") then
    match Get store id with
    | Some payload =>
      (* data.Found = true; data.Raw = string(payload);
         _ = json.Unmarshal(payload, &data.Order) *)
      let '(o, _) := Unmarshal order_type payload (Order data) in
      {| ID := id; Found := true; Order := o; Raw := payload |}
    | None => data
    end
  else data.

(** [pageHandler(store)] applied to a request. *)
Definition pageHandler (store : Store) (r : Request) : Response :=
  let id := query_get "id" (URLQuery r) in
  let data := page_data_of store id in
  let w := header_set "Content-Type" "text/html; charset=utf-8" new_response in
  let '(w, _) := pageTpl_Execute w data in
  w.

(* ================================================================== *)
(** ** [newStore], the message loop and the HTTP routing of [main] *)

(** [s.initDB(ctx)]: [CREATE TABLE IF NOT EXISTS orders (...)] and
    [CREATE INDEX IF NOT EXISTS idx_orders_uid ...].  An existing table is
    left as it is, and a missing one is created empty, which the map of
    rows already stands for. *)
Definition initDB (o : db_outcome) : M (option error) :=
  fun s => match o with
           | DbOk => (None, s, [])
           | DbFail msg => (Some (ErrDB msg), s, [])
           end.

(** [newStore(ctx, dsn)] over the table [t]: [pgxpool.ParseConfig] and
    [pgxpool.NewWithConfig] either succeed or return an error; then
    [initDB] and [LoadCache] run on a store whose cache is empty.  The
    store is returned only when every step succeeded. *)
Definition newStore (cfg_err pool_err : option string) (init : db_outcome)
    (q : query_result) (t : gmap string row) : option Store * option error * list event :=
  match cfg_err with
  | Some msg => (None, Some (ErrDB msg), [])
  | None =>
    match pool_err with
    | Some msg => (None, Some (ErrDB msg), [])
    | None =>
      let '(e1, s1, ev1) := initDB init (empty_cache_store t) in
      match e1 with
      | Some e => (None, Some e, ev1)
      | None =>
        let '(e2, s2, ev2) := LoadCache q s1 in
        match e2 with
        | Some e => (None, Some e, (ev1 ++ ev2)%list)
        | None => (Some s2, None, (ev1 ++ ev2)%list)
        end
      end
    end
  end.

(** The durable subscription hands the messages to the handler one at a
    time ([SetManualAckMode()], [MaxInflight(1)]).  Each delivery comes with
    the database outcome and the clock of its upsert; a redelivered message
    is a later delivery of the same data. *)
Fixpoint run_messages (ds : list (db_outcome * Z * Msg)) : M unit :=
  match ds with
  | [] => ret tt
  | (o, now, m) :: ds' =>
    let* _ := on_message o now m in
    run_messages ds'
  end.

(** [strings.Split(s, sep)] for a one-byte separator. *)
Fixpoint split_on (sep : ascii) (s : string) : list string :=
  match s with
  | EmptyString => [""]
  | String c r =>
    let rest := split_on sep r in
    if Ascii.eqb c sep then "" :: rest
    else match rest with
         | x :: xs => String c x :: xs
         | [] => [String c ""]
         end
  end.

Definition ends_with_slash (s : string) : bool :=
  match String.get (String.length s - 1) s with
  | Some c => Ascii.eqb c "/"%char
  | None => false
  end.

(** [path.Clean] on a rooted path: empty and [.] elements are dropped, a
    [..] element removes the element before it (at the root there is none),
    and the result has no trailing slash unless it is [/]. *)
Definition path_Clean (p : string) : string :=
  let st := fold_left (fun st seg =>
                         if String.eqb seg "" || String.eqb seg "." then st
                         else if String.eqb seg ".." then tail st
                         else seg :: st)
                      (split_on "/"%char p) [] in
  "/" +:+ String.concat "/" (rev st).

(** [cleanPath] of [net/http]: the canonical form of a request path,
    keeping a trailing slash. *)
Definition cleanPath (p : string) : string :=
  match p with
  | EmptyString => "/"
  | String c _ =>
    let p := if Ascii.eqb c "/"%char then p else "/" +:+ p in
    let np := path_Clean p in
    if ends_with_slash p && negb (String.eqb np "/") then np +:+ "/" else np
  end.

(** The step of the fold in [path_Clean]. *)
Definition clean_step (st : list string) (seg : string) : list string :=
  if String.eqb seg "" || String.eqb seg "." then st
  else if String.eqb seg ".." then tail st
  else seg :: st.

(** [cleanPath] once the path is rooted. *)
Definition clean_core (p : string) : string :=
  let np := path_Clean p in
  if ends_with_slash p && negb (String.eqb np "/") then np +:+ "/" else np.

(** *** The request path as the mux sees it ([net/url]) *)

(** [shouldEscape(c, encodePath)]: letters, digits, [- _ . ~] and the
    reserved characters [$ & + , / : ; = @] are kept; every other byte,
    [?] included, is escaped. *)
Definition should_escape_path (c : ascii) : bool :=
  let n := byte c in
  if ((97 <=? n) && (n <=? 122)) || ((65 <=? n) && (n <=? 90)) || ((48 <=? n) && (n <=? 57))
  then false
  else match n with
       | 45 | 95 | 46 | 126 => false
       | 36 | 38 | 43 | 44 | 47 | 58 | 59 | 61 | 64 => false
       | _ => true
       end.

(** A digit of ["0123456789ABCDEF"]. *)
Definition upperhex (n : nat) : ascii :=
  ascii_of_nat (if n <? 10 then 48 + n else 55 + n).

(** [escape(s, encodePath)]. *)
Fixpoint url_escape (s : string) : string :=
  match s with
  | EmptyString => EmptyString
  | String c r =>
    if should_escape_path c
    then String "%"%char (String (upperhex (byte c / 16))
                            (String (upperhex (byte c mod 16)) (url_escape r)))
    else String c (url_escape r)
  end.

(** [unescape(s, encodePath)]: [%XX] with two hex digits is decoded, a
    malformed escape is an error, and every other byte, [+] included, is
    kept. *)
Fixpoint url_unescape (s : string) : option string :=
  match s with
  | EmptyString => Some EmptyString
  | String c r =>
    if Ascii.eqb c "%"%char then
      match r with
      | String h1 (String h2 r') =>
        match hex_val h1, hex_val h2 with
        | Some a, Some b => option_map (String (ascii_of_N (a * 16 + b))) (url_unescape r')
        | _, _ => None
        end
      | _ => None
      end
    else option_map (String c) (url_unescape r)
  end.

(** [validEncoded(s, encodePath)]: the sub-delimiters [! $ & ' ( ) * + , ; = : @],
    the brackets and [%] are allowed; any other byte must be one that
    [shouldEscape] keeps. *)
Fixpoint validEncoded (s : string) : bool :=
  match s with
  | EmptyString => true
  | String c r =>
    match byte c with
    | 33 | 36 | 38 | 39 | 40 | 41 | 42 | 43 | 44 | 59 | 61 | 58 | 64 => validEncoded r
    | 91 | 93 => validEncoded r
    | 37 => validEncoded r
    | _ => if should_escape_path c then false else validEncoded r
    end
  end.

(** [u.EscapedPath()] for [u.Path = path] and [u.RawPath = raw]: the raw
    form when it is a valid encoding of the path, otherwise the default
    encoding of the path ([*] is kept as it is). *)
Definition EscapedPath (path raw : string) : string :=
  if negb (String.eqb raw "") && validEncoded raw
     && match url_unescape raw with Some p => String.eqb p path | None => false end
  then raw
  else if String.eqb path "*" then "*"
  else url_escape path.

(** What the server reads of a request besides [r.Method], [r.URL.Path] and
    the query: [r.RequestURI], the request target as sent, and
    [r.URL.RawPath], which [url.setPath] sets to the path as sent when that
    is not the default encoding of the decoded path, and leaves empty
    otherwise. *)
Record RequestTarget := { RequestURI : string; RawPath : string }.

(** *** The routing of [http.ServeMux] *)

(** The handlers [main] registers on its [http.ServeMux]. *)
Inductive route := RApi | RPage | RRoot.

(** The text before the first slash of [s], and the rest from that slash. *)
Fixpoint split_at_slash (s : string) : string * string :=
  match s with
  | EmptyString => (EmptyString, EmptyString)
  | String c r =>
    if Ascii.eqb c "/"%char then (EmptyString, s)
    else let '(a, b) := split_at_slash r in (String c a, b)
  end.

(** [pathUnescape]: [url.PathUnescape], or the segment itself when it is
    not a valid encoding. *)
Definition pathUnescape (s : string) : string :=
  match url_unescape s with Some u => u | None => s end.

(** [firstSegment(path)]: the unescaped first segment of a path, and the
    rest from the next slash. *)
Definition firstSegment (path : string) : string * string :=
  if String.eqb path "/" then ("/", "") else
  let '(seg, rest) :=
    split_at_slash (match path with String _ r => r | EmptyString => EmptyString end) in
  (pathUnescape seg, rest).

(** [matchPath] of the routing tree built from the patterns [/api/orders/],
    [/orders] and [/] (no host, no method): the root has the literal
    children [api] and [orders] and the multi child of [/]; the node [api]
    has the literal child [orders], whose multi child is [/api/orders/];
    the node [orders] holds [/orders].  At each node a used-up path matches
    the node's own handler (the root and the inner nodes have none), and a
    literal child is tried before the multi child. *)
Definition tree_match (path : string) : option route :=
  if String.eqb path "" then None else
  let '(seg, rest) := firstSegment path in
  let lit :=
    if String.eqb seg "api" then
      if String.eqb rest "" then None else
      let '(seg2, rest2) := firstSegment rest in
      if String.eqb seg2 "orders" then
        if String.eqb rest2 "" then None else Some RApi
      else None
    else if String.eqb seg "orders" then
      if String.eqb rest "" then Some RPage else None
    else None in
  match lit with
  | Some h => Some h
  | None => Some RRoot
  end.

(** The shape of each pattern: whether it ends in a multi wildcard (a
    trailing slash) and its number of segments. *)
Definition pattern_multi (h : route) : bool := match h with RPage => false | _ => true end.

Definition pattern_nsegs (h : route) : nat := match h with RApi => 3 | _ => 1 end.

Fixpoint count_slash (s : string) : nat :=
  match s with
  | EmptyString => 0
  | String c r => (if Ascii.eqb c "/"%char then 1 else 0) + count_slash r
  end.

(** [exactMatch(n, path)]: the pattern matched with an empty multi
    wildcard, if any. *)
Definition exactMatch (n : option route) (path : string) : bool :=
  match n with
  | None => false
  | Some h =>
    if negb (pattern_multi h) then true
    else if negb (String.eqb path "") && negb (ends_with_slash path) then false
    else pattern_nsegs h =? count_slash path
  end.

(** [mux.matchOrRedirect(host, method, path, u)], with [Some u.Path] for a
    non-nil [u]: when [path] has no exact match and no trailing slash but
    [path + "/"] has one, the result is a redirect to [cleanPath(u.Path) + "/"]. *)
Definition matchOrRedirect (path : string) (u : option string) : option route * option string :=
  let n := tree_match path in
  match u with
  | Some upath =>
    if negb (exactMatch n path) && negb (ends_with_slash path)
       && exactMatch (tree_match (path +:+ "/")) (path +:+ "/")
    then (None, Some (cleanPath upath +:+ "/"))
    else (n, None)
  | None => (n, None)
  end.

(** The outcome of [mux.findHandler(r)]: a [RedirectHandler] to the URL
    whose [Path] is given, a registered handler, or [NotFoundHandler()]. *)
Inductive mux_result :=
| MuxRedirect (path : string)
| MuxHandle (h : route)
| MuxNotFound.

(** [mux.findHandler(r)] for [r.Method = meth], [r.URL.Path = path] and
    [r.URL.EscapedPath() = escaped].  A CONNECT request gets the
    trailing-slash redirect but is matched on its escaped path as it is;
    any other request is matched on [cleanPath] of its escaped path, and
    is redirected to that clean path when it differs. *)
Definition findHandler (meth path escaped : string) : mux_result :=
  if String.eqb meth "CONNECT" then
    match (matchOrRedirect escaped (Some path)).2 with
    | Some u => MuxRedirect u
    | None => match (matchOrRedirect escaped None).1 with
              | Some h => MuxHandle h
              | None => MuxNotFound
              end
    end
  else
    let cp := cleanPath escaped in
    match matchOrRedirect cp (Some path) with
    | (_, Some u) => MuxRedirect u
    | (n, None) =>
      if negb (String.eqb cp escaped) then MuxRedirect cp
      else match n with Some h => MuxHandle h | None => MuxNotFound end
    end.

(** [http.StatusText] for the codes the service sends. *)
Definition StatusText (code : Z) : string :=
  if (code =? 200)%Z then "OK"
  else if (code =? 301)%Z then "Moved Permanently"
  else if (code =? 302)%Z then "Found"
  else if (code =? 400)%Z then "Bad Request"
  else if (code =? 404)%Z then "Not Found"
  else "".

(** [htmlEscape] of [net/http] ([htmlReplacer]). *)
Fixpoint http_htmlEscape (s : string) : string :=
  match s with
  | EmptyString => EmptyString
  | String c r =>
    let rest := http_htmlEscape r in
    match byte c with
    | 34 => "&#34;" +:+ rest
    | 38 => "&amp;" +:+ rest
    | 39 => "&#39;" +:+ rest
    | 60 => "&lt;" +:+ rest
    | 62 => "&gt;" +:+ rest
    | _ => String c rest
    end
  end.

(** [http.Redirect(w, r, url, code)] for a [url] that is a rooted ASCII
    path without a query (the service passes ["/orders"]): the path is
    cleaned keeping a trailing slash, the [Location] header is set, a GET
    or HEAD response gets an HTML content type, and a GET response gets a
    short HTML body. *)
Definition http_Redirect (w : Response) (r : Request) (url : string) (code : Z) : Response :=
  let url := let np := path_Clean url in
             if ends_with_slash url && negb (ends_with_slash np) then np +:+ "/" else np in
  let hadCT := existsb (fun kv => String.eqb (fst kv) "Content-Type") (header w) in
  let w := header_set "Location" url w in
  let w := if negb hadCT && (String.eqb (Method r) "GET" || String.eqb (Method r) "HEAD")
           then header_set "Content-Type" "text/html; charset=utf-8" w else w in
  let w := WriteHeader code w in
  if negb hadCT && String.eqb (Method r) "GET"
  then Write ("<a href=" +:+ String dquote EmptyString +:+ http_htmlEscape url
              +:+ String dquote EmptyString +:+ ">" +:+ StatusText code +:+ "</a>."
              +:+ newline +:+ newline) w
  else w.

(** [mux.HandleFunc("/", func(w, r) { http.Redirect(w, r, "/orders", http.StatusFound) })] *)
Definition root_handler (r : Request) : Response :=
  http_Redirect new_response r "/orders" 302.

(** What the server does with a request: a redirect by the mux to the URL
    with the given path (and the request's raw query), the 400 answer
    [ServeMux.ServeHTTP] gives on its own to the request target [*], or
    the response of a handler. *)
Inductive served :=
| MuxRedirected (path : string)
| MuxBadRequest
| Handled (w : Response).

(** [srv.Handler = mux] applied to a request. *)
Definition serve (store : Store) (r : Request) (t : RequestTarget) : served :=
  if String.eqb (RequestURI t) "*" then MuxBadRequest else
  match findHandler (Method r) (URLPath r) (EscapedPath (URLPath r) (RawPath t)) with
  | MuxRedirect p => MuxRedirected p
  | MuxNotFound => Handled (http_Error new_response "404 page not found" 404)
  | MuxHandle RApi => Handled (apiHandler store r)
  | MuxHandle RPage => Handled (pageHandler store r)
  | MuxHandle RRoot => Handled (root_handler r)
  end.

(** The bytes [html/template]'s escaper never lets through: NUL (0), the
    double quote (34), the single quote (39), plus (43), less-than (60) and
    greater-than (62). *)
Definition html_unsafe_byte (n : nat) : bool :=
  (n =? 0) || (n =? 34) || (n =? 39) || (n =? 43) || (n =? 60) || (n =? 62).

(** The strings the escaper leaves unchanged: no byte it rewrites. *)
Fixpoint html_plain (s : string) : bool :=
  match s with
  | EmptyString => true
  | String c r => negb (html_unsafe_byte (byte c) || (byte c =? 38)) && html_plain r
  end.

(** The strings without a byte the escaper never lets through. *)
Fixpoint html_safe (s : string) : bool :=
  match s with
  | EmptyString => true
  | String c r => negb (html_unsafe_byte (byte c)) && html_safe r
  end.

(* ================================================================== *)
(** ** Notions used by the statements *)

Definition result_of {A} (r : A * Store * list event) : A := r.1.1.
Definition store_of {A} (r : A * Store * list event) : Store := r.1.2.
Definition events_of {A} (r : A * Store * list event) : list event := r.2.

(** Every cache entry is the payload the table holds for its key. *)
Definition cache_sync (s : Store) : Prop :=
  forall k v, cache s !! k = Some v -> row_payload <$> db s !! k = Some v.

(** The value of the last member of an object whose key selects field [i]
    of [fs]. *)
Fixpoint member_for (fs : list (string * gotype)) (i : nat) (ms : list (string * json))
  : option json :=
  match ms with
  | [] => None
  | (k, x) :: ms' =>
    match member_for fs i ms' with
    | Some y => Some y
    | None => if decide (field_index fs k = Some i) then Some x else None
    end
  end.

(** The fields the members of an object select, in document order. *)
Definition bound_fields (fs : list (string * gotype)) (ms : list (string * json)) : list nat :=
  omap (fun kx => field_index fs (fst kx)) ms.

Definition tmp_zero_fields : list goval := [VString ""; VNil; VNil; VSlice []].

(** A member that selects the [items] field decodes without error exactly
    when it is [null] or an array. *)
Definition items_decodable (o : option json) : bool :=
  match o with
  | None | Some JNull | Some (JArr _) => true
  | Some _ => false
  end.



(** Inputs of the scenarios of the specification. *)
Definition scenario_A1 : string :=
  dq "{'order_uid':'A1','delivery':{},'payment':{},'items':[{'x':1}]}".

Definition scenario_A1_members : list (string * json) :=
  [("order_uid", JStr "A1"); ("delivery", JObj []); ("payment", JObj []);
   ("items", JArr [JObj [("x", JNum "1")]])].

(** The same order followed by a member [Items] holding an empty array. *)
Definition payload_case_variant_items : string :=
  dq "{'order_uid':'A1','delivery':{},'payment':{},'items':[{'x':1}],'Items':[]}".


(** A table holding one row. *)
Definition table_A1 : gmap string row :=
  {[ "A1" := {| row_payload := "p"; row_created_at := 0%Z |} ]}.

(** A store whose cache holds, for [bad], bytes that are JSON but not an order. *)
Definition store_bad_entry : Store := {| db := ∅; cache := {[ "bad" := "[1]" ]} |}.

Definition request_orders (q : list (string * string)) : Request :=
  {| Method := "GET"; URLPath := "/orders"; URLQuery := q |}.

Definition empty_store : Store := {| db := ∅; cache := ∅ |}.

Definition request_api_unknown : Request :=
  {| Method := "GET"; URLPath := "/api/orders/unknown"; URLQuery := [] |}.

Definition request_favicon : Request :=
  {| Method := "GET"; URLPath := "/favicon.ico"; URLQuery := [] |}.

Definition target_api_unknown : RequestTarget := {| RequestURI := "/api/orders/unknown"; RawPath := "" |}.

Definition target_favicon : RequestTarget := {| RequestURI := "/favicon.ico"; RawPath := "" |}.

(* ================================================================== *)
(** * Properties *)

(* ------------------------------------------------------------------ *)
(** ** The store *)

Lemma sql_upsert_lookup_eq (t : gmap string row) (now : Z) (id payload : string) :
  row_payload <$> sql_upsert t now id payload !! id = Some payload.
Proof. unfold sql_upsert. destruct (t !! id); by rewrite lookup_insert_eq. Qed.

Lemma sql_upsert_lookup_ne (t : gmap string row) (now : Z) (id payload k : string) :
  k <> id -> sql_upsert t now id payload !! k = t !! k.
Proof. intros Hne. unfold sql_upsert. destruct (t !! id); by rewrite lookup_insert_ne. Qed.

Lemma sql_upsert_twice (t : gmap string row) (n1 n2 : Z) (id payload : string) :
  sql_upsert (sql_upsert t n1 id payload) n2 id payload = sql_upsert t n1 id payload.
Proof.
  unfold sql_upsert at 2 3. destruct (t !! id) as [r|] eqn:Ht;
    unfold sql_upsert; rewrite lookup_insert_eq; simpl; by rewrite insert_insert_eq.
Qed.

Lemma cache_sync_insert (s : Store) (now : Z) (id payload : string) :
  cache_sync s ->
  cache_sync {| db := sql_upsert (db s) now id payload; cache := <[id := payload]> (cache s) |}.
Proof.
  intros Hs k v. simpl. destruct (decide (k = id)) as [->|Hne].
  - rewrite lookup_insert_eq. intros [= <-]. apply sql_upsert_lookup_eq.
  - rewrite lookup_insert_ne by congruence. rewrite sql_upsert_lookup_ne by done. apply Hs.
Qed.

(** C1: [Upsert] runs the durable write first.  When the database reports an
    error, [Upsert] returns it and the store (table and cache) is exactly
    as before, with no cache step; when the write succeeds the cache entry
    for [id] is set to [payload] after it and nothing else changes.  Hence
    "every cache entry is the payload the table holds for its key" is
    preserved. *)
Theorem Upsert_cache_after_durable_write (o : db_outcome) (now : Z) (id payload : string)
    (s : Store) :
  let r := Upsert o now id payload s in
  match o with
  | DbFail msg =>
      result_of r = Some (ErrDB msg) /\ store_of r = s
      /\ events_of r = [EvDbExec id payload false]
  | DbOk =>
      result_of r = None
      /\ store_of r = {| db := sql_upsert (db s) now id payload;
                         cache := <[id := payload]> (cache s) |}
      /\ events_of r = [EvDbExec id payload true; EvCacheSet id payload]
  end /\ (cache_sync s -> cache_sync (store_of r)).
Proof.
  destruct o as [|msg]; cbn; (split; [repeat split|]).
  - apply cache_sync_insert.
  - done.
Qed.

(* ------------------------------------------------------------------ *)
(** ** Idempotence and replacement *)

(** C4: once [Upsert(id, payload)] has been committed, applying it again
    with the same arguments, whatever the database answers and whatever
    the clock reads, leaves the table (payload and [created_at]) and the
    cache exactly as the first application left them. *)
Theorem Upsert_idempotent (o2 : db_outcome) (n1 n2 : Z) (id payload : string) (s : Store) :
  store_of (Upsert o2 n2 id payload (store_of (Upsert DbOk n1 id payload s)))
  = store_of (Upsert DbOk n1 id payload s).
Proof.
  destruct o2; cbn; [|done].
  by rewrite sql_upsert_twice, insert_insert_eq.
Qed.

(** C5: two committed upserts of the same key with any payloads both
    succeed (the second takes the conflict branch of the statement instead
    of failing) and leave the table and the cache mapping [id] to the later
    payload. *)
Theorem Upsert_last_write_wins (n1 n2 : Z) (id p1 p2 : string) (s : Store) :
  let r1 := Upsert DbOk n1 id p1 s in
  let r2 := Upsert DbOk n2 id p2 (store_of r1) in
  result_of r1 = None /\ result_of r2 = None
  /\ row_payload <$> db (store_of r2) !! id = Some p2
  /\ cache (store_of r2) !! id = Some p2.
Proof.
  cbn. split; [done|]. split; [done|]. split.
  - apply sql_upsert_lookup_eq.
  - by rewrite lookup_insert_eq.
Qed.

(* ------------------------------------------------------------------ *)
(** ** The message handler *)

(** C3: the steps [on_message] takes.  A message that fails validation is
    logged and acknowledged; a valid message whose upsert fails is logged
    and not acknowledged; a valid message whose upsert succeeds is
    acknowledged after the database write and the cache update. *)
Theorem on_message_ack_policy (o : db_outcome) (now : Z) (m : Msg) (s : Store) :
  let evs := events_of (on_message o now m s) in
  match minimalValidateOrder (Data m) with
  | (_, Some _) => exists msg, evs = [EvLog msg; EvAck (Sequence m)]
  | (id, None) =>
    match o with
    | DbFail _ => exists msg, evs = [EvDbExec id (Data m) false; EvLog msg]
    | DbOk => exists msg,
        evs = [EvDbExec id (Data m) true; EvCacheSet id (Data m); EvAck (Sequence m); EvLog msg]
    end
  end.
Proof.
  unfold on_message. destruct (minimalValidateOrder (Data m)) as [id [e|]].
  - cbn. eexists. reflexivity.
  - destruct o; cbn; eexists; reflexivity.
Qed.

(* ------------------------------------------------------------------ *)
(** ** Bootstrap *)

Lemma load_rows_all_ok (l : list (string * string)) (n : nat) (s : Store) :
  load_rows (map (fun kv => RowOk kv.1 kv.2) l) n s
  = ((None, n + length l)%nat,
     {| db := db s; cache := fold_left (fun c kv => <[kv.1 := kv.2]> c) l (cache s) |},
     map (fun kv => EvCacheSet kv.1 kv.2) l).
Proof.
  revert n s. induction l as [|[k v] l IH]; intros n s; cbn.
  - rewrite Nat.add_0_r. by destruct s.
  - unfold bind. cbn. rewrite IH. cbn. by rewrite Nat.add_succ_r.
Qed.

Lemma fold_left_insert_list_to_map (l : list (string * string)) :
  fold_left (fun c kv => <[kv.1 := kv.2]> c) l (∅ : gmap string string)
  = list_to_map (rev l).
Proof. unfold list_to_map. by rewrite fold_left_rev_right. Qed.

(** C6: at startup the cache is empty; when the query delivers every row
    of the table once (in any order) and completes without error,
    [LoadCache] succeeds and afterwards [Get] returns, for every
    identifier, exactly the payload the table holds for it, and nothing
    for an identifier the table does not hold. *)
Theorem LoadCache_restores_table (t : gmap string row) (l : list (string * string)) :
  l ≡ₚ map_to_list (row_payload <$> t) ->
  let r := LoadCache (QueryRows (map (fun kv => RowOk kv.1 kv.2) l) None)
                     (empty_cache_store t) in
  result_of r = None /\ forall id, Get (store_of r) id = row_payload <$> t !! id.
Proof.
  intros Hperm. cbn [LoadCache]. unfold bind. rewrite load_rows_all_ok. cbn.
  split; [done|]. intros id. unfold Get. cbn.
  rewrite fold_left_insert_list_to_map.
  assert (Heq : list_to_map (map_to_list (row_payload <$> t)) = (list_to_map (rev l) : gmap string string)).
  { apply list_to_map_proper; [apply NoDup_fst_map_to_list|].
    etrans; [|apply Permutation_rev]. by rewrite Hperm. }
  rewrite <- Heq, list_to_map_to_list. by rewrite lookup_fmap.
Qed.

(* ------------------------------------------------------------------ *)
(** ** HTTP handlers *)

Lemma str_app_assoc (a b c : string) : (a +:+ b) +:+ c = a +:+ (b +:+ c).
Proof. induction a as [|x a IH]; [done|]. cbn. by rewrite IH. Qed.

Lemma str_app_nil_r (a : string) : a +:+ "" = a.
Proof. induction a as [|x a IH]; [done|]. cbn. by rewrite IH. Qed.

Lemma str_length_app (a b : string) :
  String.length (a +:+ b) = (String.length a + String.length b)%nat.
Proof. induction a as [|x a IH]; [done|]. cbn. by rewrite IH. Qed.

Lemma strip_prefix_app (p s : string) : strip_prefix p (p +:+ s) = Some s.
Proof. induction p as [|x p IH]; [done|]. cbn. by rewrite Ascii.eqb_refl. Qed.

Lemma join_lines_elem (ls : list string) (x : string) :
  In x ls -> exists pre post, join_lines ls = pre +:+ x +:+ post.
Proof.
  induction ls as [|y ls IH]; [done|]. intros [->|Hin].
  - destruct ls as [|z ls].
    + exists "", "". cbn. by rewrite str_app_nil_r.
    + exists "", (newline +:+ join_lines (z :: ls)). done.
  - destruct (IH Hin) as (pre & post & Hj).
    destruct ls as [|z ls]; [done|].
    exists (y +:+ newline +:+ pre), post.
    change (join_lines (y :: z :: ls)) with (y +:+ newline +:+ join_lines (z :: ls)).
    by rewrite Hj, !str_app_assoc.
Qed.

(** C8: for a request whose path is [/api/orders/] followed by an
    identifier (any method, any query), [apiHandler] answers 400 when the
    identifier is empty; otherwise 200 with the cached payload as body and
    a JSON content type when the cache holds the identifier, and 404 when
    it does not. *)
Theorem apiHandler_responses (store : Store) (meth ident : string)
    (q : list (string * string)) :
  let w := apiHandler store {| Method := meth; URLPath := "/api/orders/" +:+ ident;
                               URLQuery := q |} in
  match ident with
  | EmptyString => served_status w = 400%Z
  | _ =>
    match Get store ident with
    | Some p => served_status w = 200%Z /\ body w = p
                /\ In ("Content-Type", "application/json; charset=utf-8") (header w)
    | None => served_status w = 404%Z
    end
  end.
Proof.
  unfold apiHandler, TrimPrefix. cbn [URLPath]. rewrite strip_prefix_app.
  destruct ident as [|c r]; [done|].
  assert (Hne : String.eqb (String c r) ("/api/orders/" +:+ String c r) = false).
  { apply String.eqb_neq. intros Heq. apply (f_equal String.length) in Heq.
    rewrite str_length_app in Heq. cbn in Heq. lia. }
  rewrite Hne. cbn [String.eqb orb].
  destruct (Get store (String c r)); cbn; [|done].
  split; [done|]. split; [done|]. by left.
Qed.

(** C9 (amended): [pageHandler] always answers 200.  With an identifier in
    the cache it renders the record, with a non-empty identifier not in the
    cache it renders the not-found message, and with an empty identifier
    (no [id] parameter, or [id=]) it renders only the search form. *)
Theorem pageHandler_responses (store : Store) (r : Request) :
  let id := query_get "id" (URLQuery r) in
  let d := page_data_of store id in
  let w := pageHandler store r in
  served_status w = 200%Z
  /\ match id with
     | EmptyString => Found d = false /\ body w = page_top d +:+ page_bottom
     | _ =>
       match Get store id with
       | Some p => Found d = true /\ Raw d = p /\ body w = page_top d +:+ page_found d +:+ page_bottom
       | None => Found d = false /\ body w = page_top d +:+ page_not_found d +:+ page_bottom
       end
     end.
Proof.
  cbv zeta. unfold pageHandler, pageTpl_Execute, render_page.
  set (id := query_get "id" (URLQuery r)).
  split; [done|].
  unfold page_data_of. destruct id as [|c rest] eqn:Hid; [done|].
  cbn [String.eqb negb].
  destruct (Get store (String c rest)) as [p|]; [|done].
  cbn [Order]. destruct (Unmarshal order_type p (zero order_type)).
  cbn [body Write WriteHeader status new_response header_set header Found Raw].
  split; [done|]. split; done.
Qed.

(** C10: when the cache holds, for the requested non-empty identifier, a
    payload that does not decode into [Order] (the decoding error is
    discarded), [pageHandler] still answers 200, marks the entry as found,
    and the page contains the payload (HTML-escaped). *)
Theorem pageHandler_undecodable_entry (store : Store) (r : Request) (p : string) :
  query_get "id" (URLQuery r) <> "" ->
  Get store (query_get "id" (URLQuery r)) = Some p ->
  (Unmarshal order_type p (zero order_type)).2 <> None ->
  let d := page_data_of store (query_get "id" (URLQuery r)) in
  let w := pageHandler store r in
  served_status w = 200%Z /\ Found d = true /\ Raw d = p
  /\ exists pre post, body w = pre +:+ html_escape p +:+ post.
Proof.
  intros Hid Hget _. cbv zeta.
  unfold pageHandler, pageTpl_Execute, render_page, page_data_of.
  set (id := query_get "id" (URLQuery r)) in *.
  destruct id as [|c rest]; [done|]. cbn [String.eqb negb]. rewrite Hget.
  cbn [Order]. destruct (Unmarshal order_type p (zero order_type)) as [o e].
  split; [done|]. split; [done|]. split; [done|].
  cbn [Found]. unfold page_found. cbn [Raw].
  match goal with
  | |- context [join_lines ?ls] =>
      destruct (join_lines_elem ls ("  <details><summary>Показать сырой JSON</summary><pre>"
                                    +:+ html_escape p +:+ "</pre></details>")) as (pre & post & Hj)
  end.
  { cbn [In]. do 20 right. by left. }
  rewrite Hj.
  exists (page_top {| ID := String c rest; Found := true; Order := o; Raw := p |} +:+ pre
          +:+ "  <details><summary>Показать сырой JSON</summary><pre>"),
         ("</pre></details>" +:+ post +:+ page_bottom).
  cbn [body Write WriteHeader status new_response header_set header].
  rewrite !str_app_assoc. reflexivity.
Qed.

(* ------------------------------------------------------------------ *)
(** ** Decoding an object into a struct *)

Lemma find_index_lt {A} (p : A -> bool) (l : list A) (i : nat) :
  find_index p l = Some i -> i < length l.
Proof.
  revert i. induction l as [|x l IH]; intros i; cbn; [done|].
  destruct (p x); [intros [= <-]; lia|].
  destruct (find_index p l) as [j|] eqn:Hj; cbn; [|done].
  intros [= <-]. specialize (IH j eq_refl). lia.
Qed.

Lemma field_index_lt (fs : list (string * gotype)) (k : string) (i : nat) :
  field_index fs k = Some i -> i < length fs.
Proof.
  unfold field_index.
  destruct (find_index _ fs) as [j|] eqn:Hj.
  - intros [= <-]. by eapply find_index_lt.
  - apply find_index_lt.
Qed.

Lemma member_for_bound (fs : list (string * gotype)) (i : nat) (ms : list (string * json))
    (x : json) :
  member_for fs i ms = Some x -> i ∈ bound_fields fs ms.
Proof.
  revert x. induction ms as [|[k y] ms IH]; intros x; cbn; [done|].
  unfold bound_fields in *. cbn.
  destruct (member_for fs i ms) as [z|].
  - intros _. specialize (IH z eq_refl). destruct (field_index fs k); [by right|done].
  - case_decide as Hk; [|done]. rewrite Hk. intros _. by left.
Qed.

Lemma nth_insert_eq (vals : list goval) (j : nat) (v : goval) :
  j < length vals -> nth j (<[j := v]> vals) VNil = v.
Proof. intros Hj. by rewrite nth_lookup, list_lookup_insert_eq. Qed.

Lemma nth_insert_ne (vals : list goval) (i j : nat) (v : goval) :
  i <> j -> nth i (<[j := v]> vals) VNil = nth i vals VNil.
Proof. intros Hij. rewrite !nth_lookup, list_lookup_insert_ne; [done|lia]. Qed.

(** When no two members select the same field, each field ends up decoded
    from the member that selects it, starting from its initial value, and
    decoding reports an error exactly when one of those decodings does. *)
Lemma decode_members_unique
    (dec : json -> gotype -> goval -> goval * option decode_error)
    (fs : list (string * gotype)) (ms : list (string * json)) (vals : list goval) :
  length vals = length fs ->
  NoDup (bound_fields fs ms) ->
  let r := decode_members dec fs ms vals in
  length r.1 = length fs
  /\ (forall i, i < length fs ->
        nth i r.1 VNil = match member_for fs i ms with
                         | Some x => (dec x (field_type fs i) (nth i vals VNil)).1
                         | None => nth i vals VNil
                         end)
  /\ (r.2 = None <-> forall i x, member_for fs i ms = Some x ->
                      (dec x (field_type fs i) (nth i vals VNil)).2 = None).
Proof.
  revert vals. induction ms as [|[k x] ms IH]; intros vals Hlen Hnd; cbn.
  - split; [done|]. split; [done|]. split; [done|]. intros _. done.
  - unfold bound_fields in Hnd. cbn in Hnd.
    destruct (field_index fs k) as [j|] eqn:Hk.
    + apply NoDup_cons in Hnd as [Hj Hnd].
      pose proof (field_index_lt _ _ _ Hk) as Hjlt.
      destruct (dec x (field_type fs j) (nth j vals VNil)) as [v e1] eqn:Hd.
      assert (Hlen1 : length (<[j := v]> vals) = length fs) by (by rewrite length_insert).
      destruct (IH (<[j := v]> vals) Hlen1 Hnd) as (IHlen & IHnth & IHerr).
      destruct (decode_members dec fs ms (<[j := v]> vals)) as [vals' e2] eqn:Hdm.
      cbn in IHlen, IHnth, IHerr |- *.
      split; [done|]. split.
      * intros i Hi. rewrite IHnth by done.
        destruct (member_for fs i ms) as [y|] eqn:Hm.
        { assert (i <> j).
          { intros ->. apply Hj. by eapply member_for_bound. }
          by rewrite nth_insert_ne. }
        case_decide as Hij.
        { injection Hij as <-. rewrite nth_insert_eq by lia. by rewrite Hd. }
        { assert (i <> j) by congruence. by rewrite nth_insert_ne. }
      * assert (Hmj : member_for fs j ms = None).
        { destruct (member_for fs j ms) eqn:Hmj; [|done].
          exfalso. apply Hj. by eapply member_for_bound. }
        split.
        { intros He i y Hm. destruct e1; [done|]. cbn in He.
          destruct (member_for fs i ms) as [z|] eqn:Hmi.
          - injection Hm as <-. assert (i <> j).
            { intros ->. congruence. }
            pose proof (proj1 IHerr He i z Hmi) as Hz.
            by rewrite nth_insert_ne in Hz.
          - case_decide as Hij; [|done]. injection Hij as <-. injection Hm as <-.
            by rewrite Hd. }
        { intros H. assert (He1 : e1 = None).
          { specialize (H j x). rewrite Hd in H. apply H.
            rewrite Hmj. by rewrite decide_True. }
          subst e1. cbn. apply IHerr. intros i y Hm.
          assert (i <> j).
          { intros ->. congruence. }
          rewrite nth_insert_ne by done. apply H. by rewrite Hm. }
    + assert (Hmf : forall i, match member_for fs i ms with
                              | Some y => Some y
                              | None => if decide (None = Some i) then Some x else None
                              end = member_for fs i ms).
      { intros i. destruct (member_for fs i ms); [done|]. by rewrite decide_False. }
      destruct (IH vals Hlen Hnd) as (IHlen & IHnth & IHerr).
      setoid_rewrite Hmf.
      split; [done|]. split; [done|]. done.
Qed.

(* ------------------------------------------------------------------ *)
(** ** The fields of the validation struct *)

Lemma bound_fields_lt (fs : list (string * gotype)) (ms : list (string * json)) (i : nat) :
  i ∈ bound_fields fs ms -> i < length fs.
Proof.
  unfold bound_fields. rewrite list_elem_of_omap. intros ([k x] & _ & Hk).
  by eapply field_index_lt.
Qed.

Lemma decode_elems_raw (l : list json) (old : list goval) :
  decode_elems decode TRawMessage l old = (map (fun x => VRaw (Some x)) l, None).
Proof.
  revert old. induction l as [|x l IH]; intros old; [done|].
  cbn [decode_elems]. rewrite IH. by destruct x.
Qed.


Lemma decode_ptr_raw (x : json) (cur : goval) :
  decode x (TPtr TRawMessage) cur
  = (match x with JNull => VNil | _ => VPtr (VRaw (Some x)) end, None).
Proof. by destruct x. Qed.

Lemma decode_slice_raw (x : json) (cur : goval) :
  decode x (TSlice TRawMessage) cur
  = match x with
    | JNull => (VSlice [], None)
    | JArr l => (VSlice (map (fun y => VRaw (Some y)) l), None)
    | _ => (cur, Some (UnmarshalTypeError (json_kind x)))
    end.
Proof. destruct x; try done. cbn [decode]. by rewrite decode_elems_raw. Qed.

Lemma decode_tmp_object (ms : list (string * json)) :
  decode (JObj ms) tmp_type (zero tmp_type)
  = let '(vals, e) := decode_members decode tmp_fields ms tmp_zero_fields in
    (VStruct vals, e).
Proof. reflexivity. Qed.

Lemma tmp_members_decoded (ms : list (string * json)) :
  NoDup (bound_fields tmp_fields ms) ->
  let r := decode_members decode tmp_fields ms tmp_zero_fields in
  nth 0 r.1 VNil = match member_for tmp_fields 0 ms with
                   | Some x => (decode x TString (VString "")).1
                   | None => VString "" end
  /\ nth 1 r.1 VNil = match member_for tmp_fields 1 ms with
                      | Some JNull | None => VNil
                      | Some x => VPtr (VRaw (Some x)) end
  /\ nth 2 r.1 VNil = match member_for tmp_fields 2 ms with
                      | Some JNull | None => VNil
                      | Some x => VPtr (VRaw (Some x)) end
  /\ nth 3 r.1 VNil = match member_for tmp_fields 3 ms with
                      | Some x => (decode x (TSlice TRawMessage) (VSlice [])).1
                      | None => VSlice [] end
  /\ (r.2 = None <->
      (forall x, member_for tmp_fields 0 ms = Some x ->
                 (decode x TString (VString "")).2 = None)
      /\ items_decodable (member_for tmp_fields 3 ms) = true).
Proof.
  intros Hnd r.
  destruct (decode_members_unique decode tmp_fields ms tmp_zero_fields eq_refl Hnd)
    as (_ & Hnth & Herr).
  fold r in Hnth, Herr.
  split; [rewrite Hnth by (cbn; lia); done|].
  split; [rewrite Hnth by (cbn; lia); cbn;
          destruct (member_for tmp_fields 1 ms) as [[]|]; done|].
  split; [rewrite Hnth by (cbn; lia); cbn;
          destruct (member_for tmp_fields 2 ms) as [[]|]; done|].
  split; [rewrite Hnth by (cbn; lia); done|].
  rewrite Herr. split.
  - intros H. split; [intros x Hx; exact (H 0 x Hx)|].
    destruct (member_for tmp_fields 3 ms) as [x|] eqn:H3; [|done].
    specialize (H 3 x H3). cbn in H. rewrite decode_slice_raw in H.
    destruct x; done.
  - intros [H0 H3] i x Hx.
    assert (Hi : i < 4).
    { apply (bound_fields_lt tmp_fields ms). by eapply member_for_bound. }
    destruct i as [|[|[|[|i]]]]; [..|lia].
    + by apply H0.
    + cbn. by rewrite decode_ptr_raw.
    + cbn. by rewrite decode_ptr_raw.
    + cbn. rewrite decode_slice_raw. rewrite Hx in H3. destruct x; done.
Qed.

(** Claim C2 (amended).  For a JSON object payload that [json.Valid]
    accepts (well-formed, nested at most 10000 deep) in which no two
    members select the same field of the validation struct (Go's decoder
    selects the field whose JSON name equals the key, or else equals it up
    to case), and whose member for [order_uid] is a non-empty string [uid],
    [minimalValidateOrder] returns [(uid, nil)] if and only if the members
    for [delivery] and [payment] are present and not [null] and the member
    for [items] is a non-empty array.  An empty object [{}] for [delivery]
    or [payment] is accepted; an empty array [[]] for [items] is not. *)
Theorem minimalValidateOrder_sections (payload : string) (ms : list (string * json))
    (uid : string) :
  parse_json payload = Some (JObj ms) ->
  NoDup (bound_fields tmp_fields ms) ->
  member_for tmp_fields 0 ms = Some (JStr uid) ->
  uid <> "" ->
  minimalValidateOrder payload = (uid, None) <->
  (exists d, member_for tmp_fields 1 ms = Some d /\ d <> JNull)
  /\ (exists p, member_for tmp_fields 2 ms = Some p /\ p <> JNull)
  /\ (exists l, member_for tmp_fields 3 ms = Some (JArr l) /\ l <> []).
Proof.
  intros Hp Hnd H0 Huid.
  unfold minimalValidateOrder, json_Valid, Unmarshal. rewrite Hp. cbn [negb].
  rewrite decode_tmp_object.
  pose proof (tmp_members_decoded ms Hnd) as H. cbv zeta in H.
  destruct (decode_members decode tmp_fields ms tmp_zero_fields) as [vals e] eqn:Hdm.
  cbn [fst snd] in H. destruct H as (E0 & E1 & E2 & E3 & Eerr).
  rewrite H0 in E0. cbn in E0.
  destruct e as [err|].
  - destruct err as [v]. cbn. split; [intros [=]|].
    intros (_ & _ & l & H3 & _). exfalso.
    assert (Hc : Some (UnmarshalTypeError v) = None); [|discriminate].
    apply Eerr. split.
    + intros x Hx. rewrite H0 in Hx. by injection Hx as <-.
    + by rewrite H3.
  - cbn [decode_err struct_field]. rewrite E0. cbn [as_string].
    destruct (String.eqb_spec uid "") as [|_]; [done|].
    rewrite E1, E2, E3.
    destruct (proj1 Eerr eq_refl) as [_ Hitems].
    assert (B1 : is_nil_ptr (match member_for tmp_fields 1 ms with
                             | Some JNull | None => VNil
                             | Some x => VPtr (VRaw (Some x)) end) = false
                 <-> exists d, member_for tmp_fields 1 ms = Some d /\ d <> JNull)
      by (destruct (member_for tmp_fields 1 ms) as [[]|]; naive_solver).
    assert (B2 : is_nil_ptr (match member_for tmp_fields 2 ms with
                             | Some JNull | None => VNil
                             | Some x => VPtr (VRaw (Some x)) end) = false
                 <-> exists p, member_for tmp_fields 2 ms = Some p /\ p <> JNull)
      by (destruct (member_for tmp_fields 2 ms) as [[]|]; naive_solver).
    assert (B3 : (slice_len (match member_for tmp_fields 3 ms with
                             | Some x => (decode x (TSlice TRawMessage) (VSlice [])).1
                             | None => VSlice [] end) =? 0) = false
                 <-> exists l, member_for tmp_fields 3 ms = Some (JArr l) /\ l <> []).
    { destruct (member_for tmp_fields 3 ms) as [x|]; [|naive_solver].
      rewrite decode_slice_raw. destruct x as [| | | |l|]; try done; [naive_solver|].
      cbn. rewrite length_map. destruct l; cbn; naive_solver. }
    revert B1 B2 B3.
    destruct (is_nil_ptr _), (is_nil_ptr _), (_ =? 0); cbn; naive_solver.
Qed.




(* ================================================================== *)
(** * Further properties of the service *)

(* ------------------------------------------------------------------ *)
(** ** Loading the cache *)

Lemma load_rows_scan_err (l : list (string * string)) (msg : string) (rest : list scanned)
    (n : nat) (s : Store) :
  load_rows ((map (fun kv => RowOk kv.1 kv.2) l ++ RowScanErr msg :: rest)%list) n s
  = ((Some (ErrDB msg), n + length l)%nat,
     {| db := db s; cache := fold_left (fun c kv => <[kv.1 := kv.2]> c) l (cache s) |},
     map (fun kv => EvCacheSet kv.1 kv.2) l).
Proof.
  revert n s. induction l as [|[k v] l IH]; intros n s; cbn.
  - rewrite Nat.add_0_r. by destruct s.
  - unfold bind. cbn. rewrite IH. cbn. by rewrite Nat.add_succ_r.
Qed.

Lemma rows_split (rows : list scanned) :
  (exists l, rows = map (fun kv => RowOk kv.1 kv.2) l)
  \/ (exists l msg rest, rows = (map (fun kv => RowOk kv.1 kv.2) l ++ RowScanErr msg :: rest)%list).
Proof.
  induction rows as [|[k v|msg] rows IH].
  - left. by exists [].
  - destruct IH as [(l & ->)|(l & msg & rest & ->)].
    + left. by exists ((k, v) :: l).
    + right. by exists ((k, v) :: l), msg, rest.
  - right. by exists [], msg, rows.
Qed.

Lemma LoadCache_rows_ok (l : list (string * string)) (e : option string) (s : Store) :
  LoadCache (QueryRows (map (fun kv => RowOk kv.1 kv.2) l) e) s
  = (option_map ErrDB e,
     {| db := db s; cache := fold_left (fun c kv => <[kv.1 := kv.2]> c) l (cache s) |},
     (map (fun kv => EvCacheSet kv.1 kv.2) l
      ++ [EvLog ("cache restored: " +:+ z_to_dec (Z.of_nat (length l)) +:+ " orders")])%list).
Proof.
  cbn [LoadCache]. unfold bind. rewrite load_rows_all_ok. cbn. by rewrite ?app_nil_r.
Qed.

Lemma LoadCache_none (q : query_result) (s : Store) :
  result_of (LoadCache q s) = None <->
  exists l, q = QueryRows (map (fun kv => RowOk kv.1 kv.2) l) None.
Proof.
  split.
  - destruct q as [msg|rows e]; [done|].
    destruct (rows_split rows) as [(l & ->)|(l & msg & rest & ->)].
    + rewrite LoadCache_rows_ok. unfold result_of. cbn.
      destruct e; [done|]. intros _. by exists l.
    + cbn [LoadCache]. unfold bind. rewrite load_rows_scan_err. done.
  - intros (l & ->). rewrite LoadCache_rows_ok. done.
Qed.

(** [LoadCache] succeeds exactly when the query runs, every row scans and
    [rows.Err()] reports nothing. *)
Theorem LoadCache_success_iff (q : query_result) (s : Store) :
  result_of (LoadCache q s) = None <->
  exists l, q = QueryRows (map (fun kv => RowOk kv.1 kv.2) l) None.
Proof. apply LoadCache_none. Qed.

(** When every row scans, [LoadCache] puts the rows into the cache in the
    order the query delivers them (a later row for a key replaces an
    earlier one), leaves the table alone, logs the number of rows, and
    returns the error of [rows.Err()] if there is one: the cache is filled
    even then. *)
Theorem LoadCache_all_rows_scanned (l : list (string * string)) (e : option string) (s : Store) :
  LoadCache (QueryRows (map (fun kv => RowOk kv.1 kv.2) l) e) s
  = (option_map ErrDB e,
     {| db := db s; cache := fold_left (fun c kv => <[kv.1 := kv.2]> c) l (cache s) |},
     (map (fun kv => EvCacheSet kv.1 kv.2) l
      ++ [EvLog ("cache restored: " +:+ z_to_dec (Z.of_nat (length l)) +:+ " orders")])%list).
Proof.
  cbn [LoadCache]. unfold bind. rewrite load_rows_all_ok. cbn. by rewrite ?app_nil_r.
Qed.

(** When a row fails to scan, [LoadCache] returns the scan error at once:
    the rows before it stay in the cache, the rows after it are not read,
    [rows.Err()] is not consulted and nothing is logged. *)
Theorem LoadCache_scan_error_partial (l : list (string * string)) (msg : string)
    (rest : list scanned) (e : option string) (s : Store) :
  LoadCache (QueryRows ((map (fun kv => RowOk kv.1 kv.2) l ++ RowScanErr msg :: rest)%list) e) s
  = (Some (ErrDB msg),
     {| db := db s; cache := fold_left (fun c kv => <[kv.1 := kv.2]> c) l (cache s) |},
     map (fun kv => EvCacheSet kv.1 kv.2) l).
Proof.
  cbn [LoadCache]. unfold bind. rewrite load_rows_scan_err. cbn. by rewrite ?app_nil_r.
Qed.

(** [newStore] returns a store only when the configuration parses, the
    pool opens, [initDB] succeeds and [LoadCache] succeeds; that store
    holds the table unchanged and a cache built from exactly the rows the
    query delivered (the last row for a key wins). *)
Theorem newStore_success (cfg_err pool_err : option string) (init : db_outcome)
    (q : query_result) (t : gmap string row) (s : Store) (evs : list event) :
  newStore cfg_err pool_err init q t = (Some s, None, evs) ->
  cfg_err = None /\ pool_err = None /\ init = DbOk
  /\ exists l, q = QueryRows (map (fun kv => RowOk kv.1 kv.2) l) None
               /\ db s = t /\ cache s = list_to_map (rev l).
Proof.
  unfold newStore. destruct cfg_err; [done|]. destruct pool_err; [done|].
  destruct init as [|msg]; cbn [initDB]; [|done].
  destruct (LoadCache q (empty_cache_store t)) as [[e2 s2] ev2] eqn:Hl.
  destruct e2; [done|]. intros [= -> _].
  split; [done|]. split; [done|]. split; [done|].
  assert (Hn : result_of (LoadCache q (empty_cache_store t)) = None) by (by rewrite Hl).
  apply LoadCache_none in Hn as (l & ->). exists l. split; [done|].
  rewrite LoadCache_rows_ok in Hl. injection Hl as <- _. cbn.
  split; [done|]. apply fold_left_insert_list_to_map.
Qed.

(* ------------------------------------------------------------------ *)
(** ** Upsert and the message loop *)

(** [Upsert] touches no key but its own: for any other key the table row
    and the cache entry are as before, whatever the database answers. *)
Theorem Upsert_other_keys (o : db_outcome) (now : Z) (id payload k : string) (s : Store) :
  k <> id ->
  db (store_of (Upsert o now id payload s)) !! k = db s !! k
  /\ Get (store_of (Upsert o now id payload s)) k = Get s k.
Proof.
  intros Hne. destruct o; cbn; [|done]. unfold Get. cbn.
  rewrite sql_upsert_lookup_ne by done. by rewrite lookup_insert_ne by congruence.
Qed.

Lemma minimalValidateOrder_ok_nonempty (payload id : string) :
  minimalValidateOrder payload = (id, None) -> id <> "".
Proof.
  unfold minimalValidateOrder. destruct (json_Valid payload); cbn [negb]; [|done].
  destruct (Unmarshal tmp_type payload (zero tmp_type)) as [tmp [e|]]; [done|].
  destruct (String.eqb_spec (as_string (struct_field tmp 0)) "") as [|Hne]; [done|].
  destruct (_ || _); [done|]. by intros [= <-].
Qed.

Lemma on_message_store_eq (o : db_outcome) (now : Z) (m : Msg) (s : Store) :
  store_of (on_message o now m s)
  = match minimalValidateOrder (Data m), o with
    | (id, None), DbOk => {| db := sql_upsert (db s) now id (Data m);
                             cache := <[id := Data m]> (cache s) |}
    | _, _ => s
    end.
Proof.
  unfold on_message. destruct (minimalValidateOrder (Data m)) as [id [e|]]; [done|].
  by destruct o.
Qed.

(** The message handler changes the store only for a valid message whose
    upsert commits, and then only the row and cache entry of the validated
    [order_uid], which receive the message bytes as they arrived. *)
Theorem on_message_store_effect (o : db_outcome) (now : Z) (m : Msg) (s : Store) :
  store_of (on_message o now m s)
  = match minimalValidateOrder (Data m), o with
    | (id, None), DbOk => {| db := sql_upsert (db s) now id (Data m);
                             cache := <[id := Data m]> (cache s) |}
    | _, _ => s
    end.
Proof. apply on_message_store_eq. Qed.

Lemma store_of_bind {A B} (m : M A) (k : A -> M B) (s : Store) :
  store_of (bind m k s) = store_of (k (result_of (m s)) (store_of (m s))).
Proof.
  unfold bind, store_of, result_of. destruct (m s) as [[a s1] ev1].
  cbn. destruct (k a s1) as [[b s2] ev2]. done.
Qed.

(** Whatever sequence of deliveries the subscription makes, and whatever
    the database answers, the message loop keeps two facts about the
    cache: every entry is the payload the table holds for its key, and no
    entry has the empty key. *)
Theorem run_messages_cache_invariant (ds : list (db_outcome * Z * Msg)) (s : Store) :
  cache_sync s -> (forall k v, cache s !! k = Some v -> k <> "") ->
  cache_sync (store_of (run_messages ds s))
  /\ (forall k v, cache (store_of (run_messages ds s)) !! k = Some v -> k <> "").
Proof.
  revert s. induction ds as [|[[o now] m] ds IH]; intros s Hs Hk; [done|].
  cbn [run_messages]. rewrite store_of_bind. apply IH.
  - rewrite on_message_store_eq.
    destruct (minimalValidateOrder (Data m)) as [id [e|]]; [done|].
    destruct o; [|done]. by apply cache_sync_insert.
  - rewrite on_message_store_eq.
    destruct (minimalValidateOrder (Data m)) as [id [e|]] eqn:Hv; [done|].
    destruct o; [|done]. cbn. intros k v.
    destruct (decide (k = id)) as [->|Hne].
    + intros _. by apply (minimalValidateOrder_ok_nonempty (Data m)).
    + rewrite lookup_insert_ne by congruence. apply Hk.
Qed.


(* ------------------------------------------------------------------ *)
(** ** HTML escaping and the order page *)

Lemma html_escape_cons (c : ascii) (r : string) :
  html_escape (String c r) = html_escape (String c "") +:+ html_escape r.
Proof. destruct c as [[] [] [] [] [] [] [] []]; reflexivity. Qed.

Lemma html_escape_char_safe (c : ascii) : html_safe (html_escape (String c "")) = true.
Proof. destruct c as [[] [] [] [] [] [] [] []]; vm_compute; reflexivity. Qed.

Lemma html_safe_app (a b : string) : html_safe (a +:+ b) = html_safe a && html_safe b.
Proof. induction a as [|c a IH]; [done|]. cbn. rewrite IH. by rewrite andb_assoc. Qed.

(** Whatever the page interpolates ([ID], the order's strings, [Raw]) goes
    through the escaper, whose output never holds a NUL, a double or single
    quote, a plus sign, a less-than or a greater-than sign: the values
    cannot open a tag or leave a quoted attribute. *)
Theorem html_escape_output_safe (s : string) : html_safe (html_escape s) = true.
Proof.
  induction s as [|c s IH]; [done|].
  rewrite html_escape_cons, html_safe_app, IH, html_escape_char_safe. done.
Qed.

Lemma html_escape_char_plain (c : ascii) :
  html_plain (String c "") = true -> html_escape (String c "") = String c "".
Proof. destruct c as [[] [] [] [] [] [] [] []]; vm_compute; first [reflexivity | discriminate]. Qed.

Lemma html_escape_char_len (c : ascii) :
  1 <= String.length (html_escape (String c "")).
Proof. destruct c as [[] [] [] [] [] [] [] []]; vm_compute; lia. Qed.

Lemma html_escape_char_len1 (c : ascii) :
  String.length (html_escape (String c "")) = 1 -> html_plain (String c "") = true.
Proof.
  destruct c as [[] [] [] [] [] [] [] []]; vm_compute; intros H;
    first [reflexivity | discriminate H].
Qed.

Lemma html_escape_len (s : string) : String.length s <= String.length (html_escape s).
Proof.
  induction s as [|c s IH]; [done|].
  rewrite html_escape_cons, str_length_app.
  pose proof (html_escape_char_len c).
  change (String.length (String c s)) with (S (String.length s)). lia.
Qed.

Lemma html_plain_cons (c : ascii) (r : string) :
  html_plain (String c r) = html_plain (String c "") && html_plain r.
Proof. cbn. by rewrite andb_true_r. Qed.

(** The escaper leaves a string unchanged exactly when it holds none of
    the bytes it rewrites (NUL, double quote, ampersand, single quote,
    plus, less-than, greater-than). *)
Theorem html_escape_fixed_iff (s : string) : html_escape s = s <-> html_plain s = true.
Proof.
  split.
  - induction s as [|c s IH]; [done|]. intros H.
    rewrite html_escape_cons in H.
    pose proof (f_equal String.length H) as Hl.
    rewrite str_length_app in Hl. cbn [String.length] in Hl.
    pose proof (html_escape_char_len c). pose proof (html_escape_len s).
    assert (Hone : String.length (html_escape (String c "")) = 1) by lia.
    pose proof (html_escape_char_len1 c Hone) as Hc.
    rewrite (html_escape_char_plain c Hc) in H. cbn in H. injection H as H.
    rewrite html_plain_cons, Hc. by apply IH.
  - induction s as [|c s IH]; [done|]. rewrite html_plain_cons.
    intros [Hc Hs]%andb_prop.
    rewrite html_escape_cons, (html_escape_char_plain c Hc), IH by done. done.
Qed.

Lemma page_data_of_ID (store : Store) (id : string) : ID (page_data_of store id) = id.
Proof.
  unfold page_data_of. destruct (negb (String.eqb id "")); [|done].
  destruct (Get store id); [|done].
  by destruct (Unmarshal order_type _ _).
Qed.

(** Every page [pageHandler] serves has an HTML content type and echoes the
    requested [id], escaped, as the value of the search field. *)
Theorem pageHandler_echoes_id (store : Store) (r : Request) :
  let id := query_get "id" (URLQuery r) in
  let w := pageHandler store r in
  In ("Content-Type", "text/html; charset=utf-8") (header w)
  /\ exists pre post,
       body w = pre +:+ dq "  <input name='id' type='text' placeholder='order_uid' value='"
                    +:+ html_escape id +:+ dq "'/>" +:+ post.
Proof.
  cbv zeta. unfold pageHandler, pageTpl_Execute.
  set (id := query_get "id" (URLQuery r)).
  set (d := page_data_of store id).
  split; [cbn; by left|].
  cbn [body Write WriteHeader status new_response header_set header].
  unfold render_page, page_top.
  match goal with
  | |- context [join_lines ?ls] =>
      destruct (join_lines_elem ls
                  (dq "  <input name='id' type='text' placeholder='order_uid' value='"
                   +:+ html_escape (ID d) +:+ dq "'/>")) as (pre & post & Hj)
  end.
  { cbn [In]. repeat (first [left; reflexivity | right]). }
  rewrite Hj. unfold d. rewrite page_data_of_ID.
  eexists pre, _. rewrite !str_app_assoc. reflexivity.
Qed.

(* ------------------------------------------------------------------ *)
(** ** The API handler and the routing of [main] *)

(** [apiHandler] on a path outside [/api/orders/] (which the mux never
    hands it) answers 400 with the plain-text body [missing id]. *)
Theorem apiHandler_outside_prefix (store : Store) (r : Request) :
  strip_prefix "/api/orders/" (URLPath r) = None ->
  let w := apiHandler store r in
  served_status w = 400%Z /\ body w = "missing id" +:+ newline
  /\ In ("Content-Type", "text/plain; charset=utf-8") (header w)
  /\ In ("X-Content-Type-Options", "nosniff") (header w).
Proof.
  intros H. cbv zeta. unfold apiHandler, TrimPrefix. rewrite H.
  rewrite (String.eqb_refl (URLPath r)), orb_true_r. cbn.
  split; [done|]. split; [done|]. split; [by right; left | by left].
Qed.

Lemma api_ident_ne_path (ident : string) :
  ident <> "" -> String.eqb ident ("/api/orders/" +:+ ident) = false.
Proof.
  intros _. apply String.eqb_neq. intros Heq. apply (f_equal String.length) in Heq.
  rewrite str_length_app in Heq. cbn in Heq. lia.
Qed.

(** For an identifier the cache does not hold, [apiHandler] answers 404
    with the plain-text body [not found], marked [nosniff]. *)
Theorem apiHandler_not_found_plain (store : Store) (r : Request) (ident : string) :
  URLPath r = "/api/orders/" +:+ ident -> ident <> "" -> Get store ident = None ->
  let w := apiHandler store r in
  served_status w = 404%Z /\ body w = "not found" +:+ newline
  /\ In ("Content-Type", "text/plain; charset=utf-8") (header w)
  /\ In ("X-Content-Type-Options", "nosniff") (header w).
Proof.
  intros Hp Hne Hg. cbv zeta. unfold apiHandler, TrimPrefix.
  rewrite Hp, strip_prefix_app, api_ident_ne_path by done.
  destruct (String.eqb_spec ident "") as [|_]; [done|]. cbn [orb]. rewrite Hg. cbn.
  split; [done|]. split; [done|]. split; [by right; left | by left].
Qed.

Lemma apiHandler_status_prefix (store : Store) (r : Request) (ident : string) :
  URLPath r = "/api/orders/" +:+ ident ->
  served_status (apiHandler store r)
  = match ident with
    | EmptyString => 400%Z
    | _ => match Get store ident with Some _ => 200%Z | None => 404%Z end
    end.
Proof.
  intros Hp. unfold apiHandler, TrimPrefix. rewrite Hp, strip_prefix_app.
  destruct ident as [|c rest]; [done|].
  rewrite api_ident_ne_path by done. cbn [String.eqb orb].
  by destruct (Get store (String c rest)).
Qed.

Lemma pageHandler_status (store : Store) (r : Request) :
  served_status (pageHandler store r) = 200%Z.
Proof. reflexivity. Qed.

Lemma root_handler_status (r : Request) : served_status (root_handler r) = 302%Z.
Proof.
  unfold root_handler, http_Redirect.
  destruct (String.eqb (Method r) "GET"), (String.eqb (Method r) "HEAD");
    vm_compute; reflexivity.
Qed.

Lemma strip_prefix_some (p s r : string) : strip_prefix p s = Some r -> s = p +:+ r.
Proof.
  revert s. induction p as [|a p IH]; intros s; cbn.
  - by intros [= ->].
  - destruct s as [|b s]; [done|].
    destruct (Ascii.eqb_spec a b) as [->|]; [|done].
    intros H. by rewrite (IH s H).
Qed.

Lemma url_escape_app (a b : string) : url_escape (a +:+ b) = url_escape a +:+ url_escape b.
Proof.
  induction a as [|c a IH]; [done|]. cbn. rewrite IH. by destruct (should_escape_path c).
Qed.

Lemma url_escape_cons (c : ascii) (r : string) :
  url_escape (String c r) = url_escape (String c "") +:+ url_escape r.
Proof. apply (url_escape_app (String c "") r). Qed.

Lemma url_unescape_escape_char (c : ascii) (r : string) :
  url_unescape (url_escape (String c "") +:+ r) = option_map (String c) (url_unescape r).
Proof. destruct c as [[] [] [] [] [] [] [] []]; reflexivity. Qed.

Lemma url_unescape_escape (s : string) : url_unescape (url_escape s) = Some s.
Proof.
  induction s as [|c s IH]; [done|].
  rewrite url_escape_cons, url_unescape_escape_char, IH. done.
Qed.

Lemma url_escape_inj (a b : string) : url_escape a = url_escape b -> a = b.
Proof.
  intros H. apply (f_equal url_unescape) in H. rewrite !url_unescape_escape in H.
  by injection H.
Qed.

Lemma url_escape_eqb (a b : string) : String.eqb (url_escape a) (url_escape b) = String.eqb a b.
Proof.
  destruct (String.eqb_spec a b) as [->|Hne]; [apply String.eqb_refl|].
  apply String.eqb_neq. intros H. by apply Hne, url_escape_inj.
Qed.

Lemma pathUnescape_escape (s : string) : pathUnescape (url_escape s) = s.
Proof. unfold pathUnescape. by rewrite url_unescape_escape. Qed.

Lemma url_escape_char_noslash (c : ascii) :
  c <> "/"%char -> count_slash (url_escape (String c "")) = 0.
Proof. destruct c as [[] [] [] [] [] [] [] []]; try reflexivity; by intros []. Qed.

Lemma url_escape_slash : url_escape "/" = "/".
Proof. reflexivity. Qed.

Lemma url_escape_head (c : ascii) (r t : string) :
  url_escape (String c r) = String "/"%char t -> c = "/"%char.
Proof.
  cbn. destruct (should_escape_path c); intros H; injection H as H; [discriminate|done].
Qed.

Lemma split_at_slash_app_noslash (x r : string) :
  count_slash x = 0 ->
  split_at_slash (x +:+ r) = (x +:+ (split_at_slash r).1, (split_at_slash r).2).
Proof.
  induction x as [|c x IH]; cbn; [by destruct (split_at_slash r)|].
  destruct (Ascii.eqb c "/"%char); [done|]. cbn. intros Hx.
  rewrite IH by done. done.
Qed.

Lemma split_at_slash_escape (s : string) :
  split_at_slash (url_escape s)
  = (url_escape (split_at_slash s).1, url_escape (split_at_slash s).2).
Proof.
  induction s as [|c s IH]; [done|].
  destruct (Ascii.eqb_spec c "/"%char) as [->|Hc].
  - reflexivity.
  - rewrite url_escape_cons, split_at_slash_app_noslash by (by apply url_escape_char_noslash).
    rewrite IH. cbn [split_at_slash].
    rewrite (proj2 (Ascii.eqb_neq c "/"%char) Hc).
    destruct (split_at_slash s) as [a b]. cbn [fst snd].
    by rewrite (url_escape_cons c a).
Qed.

Lemma split_at_slash_spec (s : string) :
  s = (split_at_slash s).1 +:+ (split_at_slash s).2
  /\ count_slash (split_at_slash s).1 = 0
  /\ ((split_at_slash s).2 = "" \/ exists t, (split_at_slash s).2 = "/" +:+ t).
Proof.
  induction s as [|c s IH]; [by split; [|split; [|left]]|].
  cbn. destruct (Ascii.eqb_spec c "/"%char) as [->|Hc].
  - cbn. split; [done|]. split; [done|]. right. by exists s.
  - destruct (split_at_slash s) as [a b]. cbn in IH |- *.
    destruct IH as (-> & Ha & Hb).
    rewrite (proj2 (Ascii.eqb_neq c "/"%char) Hc). cbn.
    split; [done|]. split; [done|]. done.
Qed.

Lemma url_escape_empty (s : string) : url_escape s = "" <-> s = "".
Proof.
  split; [|by intros ->]. destruct s as [|c s]; [done|].
  cbn. by destruct (should_escape_path c).
Qed.

Lemma firstSegment_escape (q : string) :
  firstSegment (url_escape ("/" +:+ q))
  = if String.eqb q "" then ("/", "")
    else ((split_at_slash q).1, url_escape (split_at_slash q).2).
Proof.
  unfold firstSegment. change (url_escape ("/" +:+ q)) with (String "/"%char (url_escape q)).
  destruct (String.eqb_spec q "") as [->|Hq]; [done|].
  assert (Hne : String.eqb (String "/"%char (url_escape q)) "/" = false).
  { apply String.eqb_neq. intros [= Hq']. by apply Hq, url_escape_empty. }
  rewrite Hne. rewrite split_at_slash_escape.
  by rewrite pathUnescape_escape.
Qed.

Lemma tree_match_none (s : string) : tree_match s = None -> s = "".
Proof.
  unfold tree_match. destruct (String.eqb_spec s "") as [->|_]; [done|].
  destruct (firstSegment s) as [seg rest].
  destruct (if String.eqb seg "api" then _ else _); done.
Qed.

Lemma url_escape_slash_app (q : string) : url_escape ("/" +:+ q) = String "/"%char (url_escape q).
Proof. reflexivity. Qed.

Lemma tree_match_api_prefix (x : string) :
  tree_match (url_escape ("/api/orders/" +:+ x)) = Some RApi.
Proof. rewrite url_escape_app. reflexivity. Qed.

Lemma tree_match_escape_inv (q : string) (h : route) :
  tree_match (url_escape ("/" +:+ q)) = Some h ->
  (h = RApi -> exists x, q = "api/orders/" +:+ x) /\ (h = RPage -> q = "orders").
Proof.
  unfold tree_match. rewrite url_escape_slash_app at 1. cbn [String.eqb].
  rewrite firstSegment_escape.
  destruct (String.eqb_spec q "") as [->|Hq]; [by intros [= <-]|].
  destruct (split_at_slash_spec q) as (Hsq & Hs1 & Hs2).
  destruct (split_at_slash q) as [q1 q2]. cbn [fst snd] in Hsq, Hs1, Hs2 |- *. subst q.
  destruct (String.eqb_spec q1 "api") as [->|H1].
  - destruct Hs2 as [->|(t & ->)]; [by intros [= <-]|].
    rewrite url_escape_slash_app at 1. cbn [String.eqb].
    rewrite firstSegment_escape.
    destruct (String.eqb_spec t "") as [->|Ht]; [by intros [= <-]|].
    destruct (split_at_slash_spec t) as (Hst & Ht1 & Ht2).
    destruct (split_at_slash t) as [t1 t2]. cbn [fst snd] in Hst, Ht1, Ht2 |- *. subst t.
    destruct (String.eqb_spec t1 "orders") as [->|H2]; [|by intros [= <-]].
    destruct Ht2 as [->|(u & ->)]; [by intros [= <-]|].
    rewrite url_escape_slash_app. cbn [String.eqb].
    intros [= <-]. split; [|done]. intros _. exists u. reflexivity.
  - destruct (String.eqb_spec q1 "orders") as [->|H2]; [|by intros [= <-]].
    destruct Hs2 as [->|(t & ->)]; [by intros [= <-]; split; [|rewrite str_app_nil_r]|].
    rewrite url_escape_slash_app. cbn [String.eqb]. by intros [= <-].
Qed.

Lemma split_on_nonempty (sep : ascii) (s : string) : split_on sep s <> [].
Proof.
  destruct s as [|c r]; [done|]. cbn. destruct (Ascii.eqb c sep); [done|].
  by destruct (split_on sep r).
Qed.

Lemma split_on_app_noslash (x r : string) : count_slash x = 0 ->
  split_on "/"%char (x +:+ r) =
  match split_on "/"%char r with y :: ys => (x +:+ y) :: ys | [] => [x] end.
Proof.
  induction x as [|d x IH]; intros Hx.
  - cbn. pose proof (split_on_nonempty "/"%char r). by destruct (split_on "/"%char r).
  - cbn in Hx |- *. destruct (Ascii.eqb d "/"%char); [done|]. cbn in Hx.
    rewrite (IH Hx). by destruct (split_on "/"%char r).
Qed.

Lemma split_on_escape (s : string) :
  split_on "/"%char (url_escape s) = map url_escape (split_on "/"%char s).
Proof.
  induction s as [|c r IH]; [done|].
  destruct (Ascii.eqb_spec c "/"%char) as [->|Hc].
  - change (url_escape (String "/"%char r)) with (String "/"%char (url_escape r)).
    cbn. by rewrite IH.
  - rewrite url_escape_cons, split_on_app_noslash by (by apply url_escape_char_noslash).
    rewrite IH. apply Ascii.eqb_neq in Hc.
    cbn [split_on]. rewrite Hc.
    pose proof (split_on_nonempty "/"%char r).
    destruct (split_on "/"%char r) as [|y ys]; [done|]. cbn [map].
    by rewrite (url_escape_cons c y).
Qed.

Lemma clean_step_escape (st : list string) (seg : string) :
  clean_step (map url_escape st) (url_escape seg) = map url_escape (clean_step st seg).
Proof.
  unfold clean_step.
  assert (E1 : String.eqb (url_escape seg) "" = String.eqb seg "") by exact (url_escape_eqb seg "").
  assert (E2 : String.eqb (url_escape seg) "." = String.eqb seg ".") by exact (url_escape_eqb seg ".").
  assert (E3 : String.eqb (url_escape seg) ".." = String.eqb seg "..") by exact (url_escape_eqb seg "..").
  rewrite E1, E2, E3.
  destruct (String.eqb seg "" || String.eqb seg "."); [done|].
  destruct (String.eqb seg ".."); [|done]. by destruct st.
Qed.

Lemma fold_clean_escape (l st : list string) :
  fold_left clean_step (map url_escape l) (map url_escape st)
  = map url_escape (fold_left clean_step l st).
Proof.
  revert st. induction l as [|seg l IH]; intros st; [done|].
  cbn. rewrite clean_step_escape. apply IH.
Qed.

Lemma concat_escape (l : list string) :
  String.concat "/" (map url_escape l) = url_escape (String.concat "/" l).
Proof.
  induction l as [|x l IH]; [done|].
  destruct l as [|y l]; [done|].
  change (url_escape x +:+ "/" +:+ String.concat "/" (map url_escape (y :: l))
          = url_escape (x +:+ "/" +:+ String.concat "/" (y :: l))).
  rewrite IH, !url_escape_app. done.
Qed.

Lemma path_Clean_escape (p : string) : path_Clean (url_escape p) = url_escape (path_Clean p).
Proof.
  unfold path_Clean. fold clean_step.
  rewrite split_on_escape.
  change (@nil string) with (map url_escape []).
  rewrite fold_clean_escape, <- map_rev, concat_escape. done.
Qed.

Lemma ends_with_slash_cons (c : ascii) (r : string) :
  ends_with_slash (String c r) = if String.eqb r "" then Ascii.eqb c "/"%char else ends_with_slash r.
Proof.
  destruct r as [|d r]; [done|]. unfold ends_with_slash. cbn -[String.get].
  rewrite Nat.sub_0_r. done.
Qed.

Lemma ends_with_slash_app (a b : string) :
  ends_with_slash (a +:+ b) = if String.eqb b "" then ends_with_slash a else ends_with_slash b.
Proof.
  destruct (String.eqb_spec b "") as [->|Hb]; [by rewrite str_app_nil_r|].
  induction a as [|c a IH]; [done|].
  change (String c a +:+ b) with (String c (a +:+ b)).
  rewrite ends_with_slash_cons, IH.
  destruct (String.eqb_spec (a +:+ b) "") as [H|]; [|done].
  by destruct a, b.
Qed.

Lemma ends_with_slash_escape_char (c : ascii) :
  ends_with_slash (url_escape (String c "")) = Ascii.eqb c "/"%char.
Proof. destruct c as [[] [] [] [] [] [] [] []]; reflexivity. Qed.

Lemma ends_with_slash_escape (s : string) : ends_with_slash (url_escape s) = ends_with_slash s.
Proof.
  induction s as [|c r IH]; [done|].
  rewrite url_escape_cons, ends_with_slash_app, ends_with_slash_cons, IH.
  assert (E : String.eqb (url_escape r) "" = String.eqb r "") by exact (url_escape_eqb r "").
  rewrite E. destruct (String.eqb r ""); [|done].
  apply ends_with_slash_escape_char.
Qed.

Lemma clean_core_escape (p : string) : clean_core (url_escape p) = url_escape (clean_core p).
Proof.
  unfold clean_core. rewrite path_Clean_escape, ends_with_slash_escape.
  rewrite <- url_escape_slash, url_escape_eqb, url_escape_slash.
  destruct (ends_with_slash p && negb (String.eqb (path_Clean p) "/")); [|done].
  by rewrite url_escape_app.
Qed.

Lemma cleanPath_core (p : string) : p <> "" ->
  cleanPath p = clean_core (match p with String "/"%char _ => p | _ => "/" +:+ p end).
Proof.
  intros Hp. destruct p as [|c r]; [done|].
  unfold cleanPath. destruct (Ascii.eqb_spec c "/"%char) as [->|Hc]; [reflexivity|].
  destruct c as [[] [] [] [] [] [] [] []]; try reflexivity. by exfalso.
Qed.

Lemma cleanPath_escape (p : string) : cleanPath (url_escape p) = url_escape (cleanPath p).
Proof.
  destruct p as [|c r]; [done|].
  rewrite (cleanPath_core (String c r)) by done.
  rewrite (cleanPath_core (url_escape (String c r))) by (intros H; discriminate (proj1 (url_escape_empty _) H)).
  destruct (Ascii.eqb_spec c "/"%char) as [->|Hc].
  - change (url_escape (String "/"%char r)) with (String "/"%char (url_escape r)).
    cbv iota. by rewrite <- clean_core_escape.
  - assert (Hs : match String c r with String "/"%char _ => String c r | _ => "/" +:+ String c r end
                 = "/" +:+ String c r) by (destruct c as [[] [] [] [] [] [] [] []]; done).
    rewrite Hs, <- clean_core_escape, url_escape_slash_app.
    destruct (url_escape (String c r)) as [|c' r'] eqn:He.
    + by apply url_escape_empty in He.
    + f_equal. destruct (Ascii.eqb_spec c' "/"%char) as [->|Hc'].
      * by apply url_escape_head in He.
      * destruct c' as [[] [] [] [] [] [] [] []]; done.
Qed.

Lemma cleanPath_head (p : string) : exists t, cleanPath p = String "/"%char t.
Proof.
  destruct p as [|c r]; [by exists ""|].
  rewrite cleanPath_core by done. unfold clean_core, path_Clean. cbv zeta.
  destruct (_ && _); eexists; reflexivity.
Qed.

Lemma EscapedPath_rooted (p e : string) :
  EscapedPath p "" = String "/"%char e ->
  exists q, p = "/" +:+ q /\ EscapedPath p "" = url_escape p.
Proof.
  unfold EscapedPath. cbn [String.eqb negb andb].
  destruct (String.eqb_spec p "*") as [->|_]; [done|].
  intros He. destruct p as [|c q]; [done|].
  rewrite (url_escape_head c q e He) in He |- *. by exists q.
Qed.

Lemma count_slash_app (a b : string) : count_slash (a +:+ b) = count_slash a + count_slash b.
Proof. induction a as [|c a IH]; [done|]. cbn. rewrite IH. lia. Qed.

Lemma str_snoc_inj (a b : string) : a +:+ "/" = b +:+ "/" -> a = b.
Proof.
  revert b. induction a as [|c a IH]; intros [|d b]; cbn; try done.
  - intros [= _ H]. by destruct b.
  - intros [= _ H]. by destruct a.
  - intros [= -> H]. by rewrite (IH b H).
Qed.

Lemma str_snoc_split (a b x : string) :
  a +:+ "/" = b +:+ x -> x <> "" -> exists x', x = x' +:+ "/" /\ a = b +:+ x'.
Proof.
  revert a. induction b as [|d b IH]; intros a H Hx.
  - exists a. by rewrite H.
  - destruct a as [|c a]; cbn in H.
    + injection H as _ H. by destruct b, x.
    + injection H as -> H. destruct (IH a H Hx) as (x' & -> & ->). by exists x'.
Qed.

Lemma matchOrRedirect_none (p u : string) (n : option route) :
  matchOrRedirect p (Some u) = (n, None) -> n = tree_match p.
Proof. unfold matchOrRedirect. destruct (_ && _ && _); congruence. Qed.

Lemma tree_match_escape_root (q : string) :
  strip_prefix "api/orders/" q = None -> q <> "orders" ->
  tree_match (url_escape ("/" +:+ q)) = Some RRoot.
Proof.
  intros Hs Ho.
  destruct (tree_match (url_escape ("/" +:+ q))) as [h|] eqn:Ht.
  - destruct (tree_match_escape_inv q h Ht) as [Ha Hp]. destruct h; [|by rewrite Hp in Ho|done].
    destruct (Ha eq_refl) as (x & ->). by rewrite strip_prefix_app in Hs.
  - apply tree_match_none in Ht. by rewrite url_escape_slash_app in Ht.
Qed.

Lemma matchOrRedirect_root (q u : string) :
  strip_prefix "api/orders/" q = None -> q <> "api/orders" -> q <> "orders" ->
  matchOrRedirect (url_escape ("/" +:+ q)) (Some u) = (Some RRoot, None).
Proof.
  intros Hs Ha Ho. unfold matchOrRedirect.
  rewrite (tree_match_escape_root q Hs Ho).
  set (e := url_escape ("/" +:+ q)).
  destruct (ends_with_slash e) eqn:He; [by rewrite andb_false_r|].
  assert (Hx : e +:+ "/" = url_escape ("/" +:+ (q +:+ "/"))).
  { unfold e. rewrite !url_escape_app. by rewrite str_app_assoc. }
  assert (Hm : exactMatch (tree_match (e +:+ "/")) (e +:+ "/") = false).
  { rewrite Hx. destruct (tree_match (url_escape ("/" +:+ (q +:+ "/")))) as [h|] eqn:Ht; [|done].
    destruct (tree_match_escape_inv _ h Ht) as [HA HP]. destruct h.
    - destruct (HA eq_refl) as (x & Hq). exfalso.
      destruct (String.eqb_spec x "") as [->|Hx0].
      + rewrite str_app_nil_r in Hq.
        change "api/orders/" with ("api/orders" +:+ "/") in Hq.
        by apply str_snoc_inj in Hq.
      + destruct (str_snoc_split _ _ _ Hq Hx0) as (x' & _ & ->).
        by rewrite strip_prefix_app in Hs.
    - specialize (HP eq_refl). apply (f_equal ends_with_slash) in HP.
      by rewrite ends_with_slash_app in HP.
    - rewrite <- Hx. unfold exactMatch. cbn [pattern_multi negb].
      assert (Hes : ends_with_slash (e +:+ "/") = true) by (rewrite ends_with_slash_app; reflexivity).
      rewrite Hes, andb_false_r, count_slash_app.
      unfold e. rewrite url_escape_slash_app. cbn. by rewrite Nat.add_1_r. }
  rewrite Hm. by rewrite andb_false_r.
Qed.

Lemma escape_api_route (ident : string) : tree_match (url_escape ("/api/orders/" +:+ ident)) = Some RApi.
Proof. apply tree_match_api_prefix. Qed.

(** A request other than CONNECT whose path is sent in the default
    encoding, and which the mux hands to a handler, is answered 400 exactly
    when its path is [/api/orders/], and 404 exactly when its path is
    [/api/orders/] followed by a non-empty identifier the cache does not
    hold: the not-found handler of the mux is never reached, and the order
    page and the root redirect never produce either code. *)
Theorem serve_error_statuses (store : Store) (r : Request) (t : RequestTarget) (w : Response) :
  Method r <> "CONNECT" -> RawPath t = "" -> serve store r t = Handled w ->
  (served_status w = 400%Z <-> URLPath r = "/api/orders/")
  /\ (served_status w = 404%Z <->
      exists ident, URLPath r = "/api/orders/" +:+ ident /\ ident <> ""
                    /\ Get store ident = None).
Proof.
  intros Hm Hraw. unfold serve. destruct (String.eqb (RequestURI t) "*"); [done|].
  rewrite Hraw. unfold findHandler. rewrite (proj2 (String.eqb_neq _ _) Hm).
  destruct (matchOrRedirect (cleanPath (EscapedPath (URLPath r) "")) (Some (URLPath r)))
    as [n [u|]] eqn:Hmr; [done|].
  apply matchOrRedirect_none in Hmr.
  destruct (String.eqb_spec (cleanPath (EscapedPath (URLPath r) "")) (EscapedPath (URLPath r) ""))
    as [Hce|]; [|done]. cbn [negb].
  destruct (cleanPath_head (EscapedPath (URLPath r) "")) as (e & He). rewrite Hce in He.
  destruct (EscapedPath_rooted _ _ He) as (q & Hq & HE).
  rewrite Hce, HE in Hmr.
  destruct n as [h|]; [|symmetry in Hmr; apply tree_match_none in Hmr; rewrite Hq, url_escape_slash_app in Hmr; discriminate].
  assert (Hapi : h = RApi <-> exists ident, URLPath r = "/api/orders/" +:+ ident).
  { split.
    - intros ->. symmetry in Hmr. rewrite Hq in Hmr.
      destruct (proj1 (tree_match_escape_inv q RApi Hmr) eq_refl) as (x & ->).
      rewrite Hq. by exists x.
    - intros (ident & Hi). rewrite Hi, escape_api_route in Hmr. by injection Hmr. }
  destruct h; intros [= <-].
  - destruct (proj1 Hapi eq_refl) as (ident & Hp).
    rewrite (apiHandler_status_prefix store r ident Hp).
    split.
    + rewrite Hp. split.
      * destruct ident; [by rewrite str_app_nil_r|]. by destruct (Get store _).
      * intros Heq. rewrite <- (str_app_nil_r "/api/orders/") in Heq at 2.
        apply (f_equal (strip_prefix "/api/orders/")) in Heq.
        rewrite !strip_prefix_app in Heq. by injection Heq as ->.
    + split.
      * intros H. exists ident. split; [done|].
        destruct ident as [|c rest]; [done|].
        split; [done|]. by destruct (Get store (String c rest)).
      * intros (ident' & Hp' & Hne & Hg). rewrite Hp in Hp'.
        apply (f_equal (strip_prefix "/api/orders/")) in Hp'.
        rewrite !strip_prefix_app in Hp'. injection Hp' as <-.
        destruct ident as [|c rest]; [done|]. by rewrite Hg.
  - rewrite pageHandler_status. split.
    + split; [done|]. intros Hp. exfalso.
      assert (Hx : exists ident, URLPath r = "/api/orders/" +:+ ident)
        by (exists ""; by rewrite str_app_nil_r).
      by apply Hapi in Hx.
    + split; [done|]. intros (ident & Hp & _). exfalso.
      by assert (RPage = RApi) by (apply Hapi; by exists ident).
  - rewrite root_handler_status. split.
    + split; [done|]. intros Hp. exfalso.
      assert (Hx : exists ident, URLPath r = "/api/orders/" +:+ ident)
        by (exists ""; by rewrite str_app_nil_r).
      by apply Hapi in Hx.
    + split; [done|]. intros (ident & Hp & _). exfalso.
      by assert (RRoot = RApi) by (apply Hapi; by exists ident).
Qed.

Lemma findHandler_root (meth q : string) :
  strip_prefix "api/orders/" q = None -> q <> "api/orders" -> q <> "orders" ->
  cleanPath ("/" +:+ q) = "/" +:+ q ->
  findHandler meth ("/" +:+ q) (url_escape ("/" +:+ q)) = MuxHandle RRoot.
Proof.
  intros Hs Ha Ho Hc. unfold findHandler.
  destruct (String.eqb meth "CONNECT").
  - rewrite (matchOrRedirect_root q _ Hs Ha Ho). cbn [snd fst matchOrRedirect].
    by rewrite (tree_match_escape_root q Hs Ho).
  - rewrite cleanPath_escape, Hc, (matchOrRedirect_root q _ Hs Ha Ho).
    by rewrite String.eqb_refl.
Qed.

(** A request (CONNECT included) whose path is sent in the default
    encoding, is clean, and is neither [/orders], nor [/api/orders], nor
    under [/api/orders/], is answered with a 302 redirect to [/orders]; a
    GET request gets the short HTML link body of [http.Redirect]. *)
Theorem serve_root_redirect (store : Store) (r : Request) (t : RequestTarget) :
  RequestURI t <> "*" -> RawPath t = "" ->
  cleanPath (URLPath r) = URLPath r ->
  strip_prefix "/api/orders/" (URLPath r) = None ->
  URLPath r <> "/api/orders" -> URLPath r <> "/orders" ->
  exists w, serve store r t = Handled w /\ served_status w = 302%Z
            /\ In ("Location", "/orders") (header w)
            /\ (Method r = "GET" ->
                body w = "<a href=" +:+ String dquote EmptyString +:+ "/orders"
                         +:+ String dquote EmptyString +:+ ">Found</a>." +:+ newline +:+ newline).
Proof.
  intros Hu Hraw Hc Hs Ha Ho.
  destruct (cleanPath_head (URLPath r)) as (q & Hq). rewrite Hc in Hq.
  change (String "/"%char q) with ("/" +:+ q) in Hq.
  rewrite Hq in Hs, Ha, Ho, Hc.
  assert (Hs' : strip_prefix "api/orders/" q = None) by exact Hs.
  assert (Ha' : q <> "api/orders") by (intros ->; by apply Ha).
  assert (Ho' : q <> "orders") by (intros ->; by apply Ho).
  assert (HE : EscapedPath (URLPath r) (RawPath t) = url_escape ("/" +:+ q))
    by (rewrite Hraw, Hq; reflexivity).
  exists (root_handler r). unfold serve.
  rewrite (proj2 (String.eqb_neq _ _) Hu), HE, Hq, findHandler_root by done.
  split; [done|]. split; [apply root_handler_status|].
  unfold root_handler, http_Redirect.
  split.
  - destruct (String.eqb (Method r) "GET"), (String.eqb (Method r) "HEAD");
      vm_compute; auto.
  - intros ->. vm_compute. reflexivity.
Qed.

(* ================================================================== *)
(** * Instances and counterexamples *)

(** [LoadCache] over a table with one row. *)
Lemma LoadCache_restores_table_witness :
  [("A1", "p")] ≡ₚ map_to_list (row_payload <$> table_A1)
  /\ (let r := LoadCache (QueryRows (map (fun kv => RowOk kv.1 kv.2) [("A1", "p")]) None)
                         (empty_cache_store table_A1) in
      result_of r = None /\ forall id, Get (store_of r) id = row_payload <$> table_A1 !! id).
Proof.
  assert (Hperm : [("A1", "p")] ≡ₚ map_to_list (row_payload <$> table_A1)).
  { unfold table_A1. rewrite map_fmap_singleton, map_to_list_singleton. reflexivity. }
  split; [exact Hperm|].
  apply (LoadCache_restores_table table_A1 [("A1", "p")]). exact Hperm.
Defined.

(** [GET /orders?id=bad] where the cache holds [[1]] for [bad]. *)
Lemma pageHandler_undecodable_entry_witness :
  query_get "id" (URLQuery (request_orders [("id", "bad")])) <> ""
  /\ Get store_bad_entry (query_get "id" (URLQuery (request_orders [("id", "bad")])))
     = Some "[1]"
  /\ (Unmarshal order_type "[1]" (zero order_type)).2 <> None
  /\ (let d := page_data_of store_bad_entry
                 (query_get "id" (URLQuery (request_orders [("id", "bad")]))) in
      let w := pageHandler store_bad_entry (request_orders [("id", "bad")]) in
      served_status w = 200%Z /\ Found d = true /\ Raw d = "[1]"
      /\ exists pre post, body w = pre +:+ html_escape "[1]" +:+ post).
Proof.
  assert (H1 : query_get "id" (URLQuery (request_orders [("id", "bad")])) <> "")
    by (vm_compute; discriminate).
  assert (H2 : Get store_bad_entry (query_get "id" (URLQuery (request_orders [("id", "bad")])))
               = Some "[1]") by (vm_compute; reflexivity).
  assert (H3 : (Unmarshal order_type "[1]" (zero order_type)).2 <> None)
    by (vm_compute; discriminate).
  split; [exact H1|]. split; [exact H2|]. split; [exact H3|].
  exact (pageHandler_undecodable_entry store_bad_entry (request_orders [("id", "bad")])
           "[1]" H1 H2 H3).
Defined.

(** The first scenario: [{"order_uid":"A1","delivery":{},"payment":{},"items":[{"x":1}]}]. *)
Lemma minimalValidateOrder_sections_witness :
  parse_json scenario_A1 = Some (JObj scenario_A1_members)
  /\ NoDup (bound_fields tmp_fields scenario_A1_members)
  /\ member_for tmp_fields 0 scenario_A1_members = Some (JStr "A1")
  /\ "A1" <> ""
  /\ (minimalValidateOrder scenario_A1 = ("A1", None) <->
      (exists d, member_for tmp_fields 1 scenario_A1_members = Some d /\ d <> JNull)
      /\ (exists p, member_for tmp_fields 2 scenario_A1_members = Some p /\ p <> JNull)
      /\ (exists l, member_for tmp_fields 3 scenario_A1_members = Some (JArr l) /\ l <> [])).
Proof.
  assert (H1 : parse_json scenario_A1 = Some (JObj scenario_A1_members))
    by (vm_compute; reflexivity).
  assert (H2 : NoDup (bound_fields tmp_fields scenario_A1_members))
    by (apply (bool_decide_unpack _); vm_compute; exact I).
  assert (H3 : member_for tmp_fields 0 scenario_A1_members = Some (JStr "A1"))
    by (vm_compute; reflexivity).
  assert (H4 : "A1" <> "") by discriminate.
  split; [exact H1|]. split; [exact H2|]. split; [exact H3|]. split; [exact H4|].
  exact (minimalValidateOrder_sections scenario_A1 scenario_A1_members "A1" H1 H2 H3 H4).
Defined.

(** Claim C2 fails on a payload whose [items] member is a non-empty array
    and which carries, after it, a member [Items] holding [[]]: Go's decoder
    binds [Items] to the same field, the later member wins, and validation
    fails with [missing required nested fields]. *)
Lemma minimalValidateOrder_case_variant_items :
  parse_json payload_case_variant_items
  = Some (JObj [("order_uid", JStr "A1"); ("delivery", JObj []); ("payment", JObj []);
                ("items", JArr [JObj [("x", JNum "1")]]); ("Items", JArr [])])
  /\ minimalValidateOrder payload_case_variant_items = ("", Some ErrMissingNested).
Proof. split; vm_compute; reflexivity. Defined.



(** Claim C9 fails on [GET /orders] without an [id]: the page is served
    with status 200 and holds neither a record nor a not-found message,
    only the search form. *)
Lemma pageHandler_empty_id_page :
  served_status (pageHandler empty_store (request_orders [])) = 200%Z
  /\ String.index 0 "не найден" (body (pageHandler empty_store (request_orders []))) = None
  /\ String.index 0 "<h3>Заказ:" (body (pageHandler empty_store (request_orders []))) = None
  /\ String.index 0 "<form" (body (pageHandler empty_store (request_orders []))) <> None.
Proof. split; [|split; [|split]]; vm_compute; [reflexivity | reflexivity | reflexivity | discriminate]. Defined.

(** [newStore] over a table with one row, whose query delivers that row. *)
Lemma newStore_success_witness :
  newStore None None DbOk (QueryRows [RowOk "A1" "p"] None) table_A1
  = (Some {| db := table_A1; cache := {[ "A1" := "p" ]} |}, None,
     [EvCacheSet "A1" "p"; EvLog "cache restored: 1 orders"])
  /\ (None = @None string /\ None = @None string /\ DbOk = DbOk
      /\ exists l, QueryRows [RowOk "A1" "p"] None
                   = QueryRows (map (fun kv => RowOk kv.1 kv.2) l) None
                   /\ db {| db := table_A1; cache := {[ "A1" := "p" ]} |} = table_A1
                   /\ cache {| db := table_A1; cache := {[ "A1" := "p" ]} |}
                      = list_to_map (rev l)).
Proof.
  assert (H : newStore None None DbOk (QueryRows [RowOk "A1" "p"] None) table_A1
              = (Some {| db := table_A1; cache := {[ "A1" := "p" ]} |}, None,
                 [EvCacheSet "A1" "p"; EvLog "cache restored: 1 orders"]))
    by (vm_compute; reflexivity).
  split; [exact H|].
  exact (newStore_success None None DbOk (QueryRows [RowOk "A1" "p"] None) table_A1
           {| db := table_A1; cache := {[ "A1" := "p" ]} |} _ H).
Defined.

(** An upsert of [A1] seen from the key [B2]. *)
Lemma Upsert_other_keys_witness :
  "B2" <> "A1"
  /\ db (store_of (Upsert DbOk 5 "A1" "p" empty_store)) !! "B2" = db empty_store !! "B2"
  /\ Get (store_of (Upsert DbOk 5 "A1" "p" empty_store)) "B2" = Get empty_store "B2".
Proof.
  assert (H : "B2" <> "A1") by discriminate.
  split; [exact H|].
  exact (Upsert_other_keys DbOk 5 "A1" "p" "B2" empty_store H).
Defined.

(** The message loop over one valid message, from an empty store. *)
Lemma run_messages_cache_invariant_witness :
  cache_sync empty_store
  /\ (forall k v, cache empty_store !! k = Some v -> k <> "")
  /\ (cache_sync (store_of (run_messages [(DbOk, 0%Z, {| Sequence := 1; Data := scenario_A1 |})]
                                         empty_store))
      /\ (forall k v, cache (store_of (run_messages
                               [(DbOk, 0%Z, {| Sequence := 1; Data := scenario_A1 |})]
                               empty_store)) !! k = Some v -> k <> "")).
Proof.
  assert (H1 : cache_sync empty_store) by (intros k v H; discriminate H).
  assert (H2 : forall k v, cache empty_store !! k = Some v -> k <> "")
    by (intros k v H; discriminate H).
  split; [exact H1|]. split; [exact H2|].
  exact (run_messages_cache_invariant
           [(DbOk, 0%Z, {| Sequence := 1; Data := scenario_A1 |})] empty_store H1 H2).
Defined.

(** [apiHandler] handed the path [/orders]. *)
Lemma apiHandler_outside_prefix_witness :
  strip_prefix "/api/orders/" (URLPath (request_orders [])) = None
  /\ (let w := apiHandler empty_store (request_orders []) in
      served_status w = 400%Z /\ body w = "missing id" +:+ newline
      /\ In ("Content-Type", "text/plain; charset=utf-8") (header w)
      /\ In ("X-Content-Type-Options", "nosniff") (header w)).
Proof.
  assert (H : strip_prefix "/api/orders/" (URLPath (request_orders [])) = None)
    by reflexivity.
  split; [exact H|].
  exact (apiHandler_outside_prefix empty_store (request_orders []) H).
Defined.

(** [GET /api/orders/unknown] on an empty cache. *)
Lemma apiHandler_not_found_plain_witness :
  URLPath request_api_unknown = "/api/orders/" +:+ "unknown" /\ "unknown" <> ""
  /\ Get empty_store "unknown" = None
  /\ (let w := apiHandler empty_store request_api_unknown in
      served_status w = 404%Z /\ body w = "not found" +:+ newline
      /\ In ("Content-Type", "text/plain; charset=utf-8") (header w)
      /\ In ("X-Content-Type-Options", "nosniff") (header w)).
Proof.
  assert (H1 : URLPath request_api_unknown = "/api/orders/" +:+ "unknown") by reflexivity.
  assert (H2 : "unknown" <> "") by discriminate.
  assert (H3 : Get empty_store "unknown" = None) by reflexivity.
  split; [exact H1|]. split; [exact H2|]. split; [exact H3|].
  exact (apiHandler_not_found_plain empty_store request_api_unknown "unknown" H1 H2 H3).
Defined.

Lemma serve_error_statuses_witness :
  let w := apiHandler empty_store request_api_unknown in
  Method request_api_unknown <> "CONNECT" /\ RawPath target_api_unknown = ""
  /\ serve empty_store request_api_unknown target_api_unknown = Handled w
  /\ (served_status w = 400%Z <-> URLPath request_api_unknown = "/api/orders/")
  /\ (served_status w = 404%Z <->
      exists ident, URLPath request_api_unknown = "/api/orders/" +:+ ident /\ ident <> ""
                    /\ Get empty_store ident = None).
Proof.
  intros w.
  assert (H1 : Method request_api_unknown <> "CONNECT") by discriminate.
  assert (H2 : RawPath target_api_unknown = "") by reflexivity.
  assert (H3 : serve empty_store request_api_unknown target_api_unknown = Handled w)
    by (vm_compute; reflexivity).
  split; [exact H1|]. split; [exact H2|]. split; [exact H3|].
  exact (serve_error_statuses empty_store request_api_unknown target_api_unknown w H1 H2 H3).
Defined.

Lemma serve_root_redirect_witness :
  RequestURI target_favicon <> "*" /\ RawPath target_favicon = ""
  /\ cleanPath (URLPath request_favicon) = URLPath request_favicon
  /\ strip_prefix "/api/orders/" (URLPath request_favicon) = None
  /\ URLPath request_favicon <> "/api/orders" /\ URLPath request_favicon <> "/orders"
  /\ exists w, serve empty_store request_favicon target_favicon = Handled w /\ served_status w = 302%Z
            /\ In ("Location", "/orders") (header w)
            /\ (Method request_favicon = "GET" ->
                body w = "<a href=" +:+ String dquote EmptyString +:+ "/orders"
                         +:+ String dquote EmptyString +:+ ">Found</a>." +:+ newline +:+ newline).
Proof.
  assert (H1 : RequestURI target_favicon <> "*") by discriminate.
  assert (H2 : RawPath target_favicon = "") by reflexivity.
  assert (H3 : cleanPath (URLPath request_favicon) = URLPath request_favicon) by (vm_compute; reflexivity).
  assert (H4 : strip_prefix "/api/orders/" (URLPath request_favicon) = None) by reflexivity.
  assert (H5 : URLPath request_favicon <> "/api/orders") by discriminate.
  assert (H6 : URLPath request_favicon <> "/orders") by discriminate.
  do 6 (split; [assumption|]).
  exact (serve_root_redirect empty_store request_favicon target_favicon H1 H2 H3 H4 H5 H6).
Defined.
